(** * PDB column alignment fixer: model and verification

    Shallow embedding of [lib/test_system/fix_pdb_alignment.py].

    The program reads a text file line by line.  A line that starts with
    the characters [ATOM] or [HETATM] and splits into at least eleven
    whitespace-delimited tokens is rewritten in fixed-width columns; every
    other line is written back as it was read.

    The file has four parts.  The first part holds the definitions: the
    Python built-ins the program calls ([str.split], [str.startswith],
    [float], the format mini-language for [<w], [>w] and [w.pf], text
    mode), the program itself, a small file system, and the vocabulary of
    the properties.  The other parts hold the lemmas and the properties:
    of the loop body and the loop (II), of rewritten lines and whole runs
    (III), of text mode, numeric text and files (IV).

    Conventions of the model.
    - A Python [str] is a list of characters; the model covers code points
      below 256, one [ascii] each.
    - [fix_pdb_alignment] takes the text the file object delivers and
      returns the text handed to [write]; [universal_newlines] is the
      translation of line endings that text mode applies to what the
      file holds, and [fix_pdb_alignment_files] is the call on a file
      system.
    - A Python [float] is an IEEE 754 binary64 value, kept as sign,
      integer significand and binary exponent; conversions from and to
      decimal text are correctly rounded, ties to even, as in CPython. *)

From Stdlib Require Import List Ascii Bool Arith ZArith Lia.
Import ListNotations.

Set Implicit Arguments.

(** ** Strings *)

Definition str := list ascii.

(** Carrier of the literal notation; literals elaborate to plain lists. *)
Inductive lit : Set :=
| LNil
| LCons (c : ascii) (s : lit).

Fixpoint lit_of_bytes (l : list Byte.byte) : lit :=
  match l with
  | [] => LNil
  | b :: l' => LCons (ascii_of_byte b) (lit_of_bytes l')
  end.

Fixpoint bytes_of_lit (s : lit) : list Byte.byte :=
  match s with
  | LNil => []
  | LCons c s' => byte_of_ascii c :: bytes_of_lit s'
  end.

Declare Scope str_scope.
Delimit Scope str_scope with str.
Bind Scope str_scope with str.
#[warning="-via-type-mismatch,-via-type-remapping"]
String Notation str lit_of_bytes bytes_of_lit
  (via lit mapping [[nil] => LNil, [cons] => LCons]) : str_scope.
Open Scope str_scope.
Open Scope list_scope.

Definition newline : ascii := ascii_of_nat 10.
Definition space : ascii := ascii_of_nat 32.

(** ** Python built-ins used by the program *)

Module Py.

(** [c.isspace()] for a code point below 256: TAB, LF, VT, FF, CR, the
    four separators FS, GS, RS, US, the space, NEL and the no-break
    space. *)
Definition isspace (c : ascii) : bool :=
  let n := nat_of_ascii c in
  ((9 <=? n) && (n <=? 13)) || ((28 <=? n) && (n <=? 32))
  || (n =? 133) || (n =? 160).

(** [s.startswith(prefix)] *)
Fixpoint startswith (s prefix : str) {struct prefix} : bool :=
  match prefix, s with
  | [], _ => true
  | _ :: _, [] => false
  | p :: prefix', c :: s' => Ascii.eqb c p && startswith s' prefix'
  end.

(** [s.split()] with no argument: the maximal runs of non-whitespace
    characters, in order.  [tokens s] is the run that touches the left
    end of [s] (empty when [s] starts with whitespace) and the runs after
    it. *)
Definition push (t : str) (ts : list str) : list str :=
  match t with
  | [] => ts
  | _ :: _ => t :: ts
  end.

Fixpoint tokens (s : str) : str * list str :=
  match s with
  | [] => ([], [])
  | c :: s' =>
      let (t, ts) := tokens s' in
      if isspace c then ([], push t ts) else (c :: t, ts)
  end.

Definition split (s : str) : list str :=
  let (t, ts) := tokens s in push t ts.

(** Iteration over a text file: the text is cut after every newline, and
    each line keeps its newline; the last line has none when the text
    does not end with one. *)
Fixpoint readlines (s : str) : list str :=
  match s with
  | [] => []
  | c :: s' =>
      if Ascii.eqb c newline then [c] :: readlines s'
      else match readlines s' with
           | [] => [[c]]
           | l :: ls => (c :: l) :: ls
           end
  end.

(** [f"{s:<w}"] and [f"{s:>w}"] for a string [s]: padding with spaces up
    to width [w], nothing is cut. *)
Definition ljust (w : nat) (s : str) : str :=
  s ++ repeat space (w - length s).

Definition rjust (w : nat) (s : str) : str :=
  repeat space (w - length s) ++ s.

(** *** Decimal digits *)

Definition isdigit (c : ascii) : bool :=
  let n := nat_of_ascii c in (48 <=? n) && (n <=? 57).

Definition digit_val (c : ascii) : Z := Z.of_nat (nat_of_ascii c) - 48.

Definition digit_char (d : Z) : ascii := ascii_of_nat (48 + Z.to_nat d).

(** Value of a digit string, most significant digit first. *)
Definition horner (s : str) : Z :=
  fold_left (fun acc c => (10 * acc + digit_val c)%Z) s 0%Z.

Fixpoint digits_aux (fuel : nat) (n : Z) (acc : str) : str :=
  match fuel with
  | O => acc
  | S fuel' =>
      let acc' := digit_char (n mod 10)%Z :: acc in
      if (n <? 10)%Z then acc' else digits_aux fuel' (n / 10)%Z acc'
  end.

(** Decimal digits of a natural number, without leading zeros. *)
Definition digits (n : Z) : str :=
  digits_aux (S (Z.to_nat (Z.log2 n))) n [].

Definition zfill (w : nat) (s : str) : str :=
  repeat (digit_char 0) (w - length s) ++ s.

(** *** Floating point *)

(** A binary64 value: not-a-number, an infinity, or
    [(-1)^neg * m * 2^e]. *)
Inductive float : Set :=
| NaN
| Inf (neg : bool)
| Finite (neg : bool) (m : Z) (e : Z).

(** Nearest integer to [n / d], ties to the even one ([0 <= n], [0 < d]). *)
Definition round_half_even (n d : Z) : Z :=
  let q := (n / d)%Z in
  let r := (n mod d)%Z in
  if (2 * r <? d)%Z then q
  else if (d <? 2 * r)%Z then (q + 1)%Z
  else if Z.even q then q else (q + 1)%Z.

(** The fraction [n / (d * 2^e)] as a pair of integers. *)
Definition scale2 (n d e : Z) : Z * Z :=
  if (0 <=? e)%Z then (n, (d * 2 ^ e)%Z) else ((n * 2 ^ (- e))%Z, d).

(** Exponent of the last place of the binary64 nearest to [n / d]: the
    least [e >= -1074] with [n / d < 2^53 * 2^e]. *)
Definition ulp_exponent (n d : Z) : Z :=
  let e0 := (Z.log2 n - Z.log2 d - 53)%Z in
  let (n', d') := scale2 n d e0 in
  Z.max (-1074) (if (n' <? d' * 2 ^ 53)%Z then e0 else e0 + 1)%Z.

(** The binary64 nearest to [(-1)^neg * n / d], ties to even; values
    that round to [2^1024] or more become an infinity. *)
Definition binary64_round (neg : bool) (n d : Z) : float :=
  if (n =? 0)%Z then Finite neg 0%Z 0%Z
  else
    let e := ulp_exponent n d in
    let (n', d') := scale2 n d e in
    let m := round_half_even n' d' in
    if (971 <? e)%Z || ((e =? 971)%Z && (m =? 2 ^ 53)%Z) then Inf neg
    else Finite neg m e.

(** The binary64 nearest to [(-1)^neg * m * 10^x]. *)
Definition binary64_of_decimal (neg : bool) (m x : Z) : float :=
  if (0 <=? x)%Z then binary64_round neg (m * 10 ^ x)%Z 1%Z
  else binary64_round neg m (10 ^ (- x))%Z.

(** Underscores of a numeric literal: each one has a digit on both
    sides; they are removed before the number is read. *)
Fixpoint strip_underscores (prev : option ascii) (s : str) : option str :=
  let after_digit :=
    match prev with
    | Some p => isdigit p
    | None => false
    end in
  let after_underscore :=
    match prev with
    | Some p => Ascii.eqb p "_"
    | None => false
    end in
  match s with
  | [] => if after_underscore then None else Some []
  | c :: s' =>
      if Ascii.eqb c "_" then
        if after_digit then strip_underscores (Some c) s' else None
      else if after_underscore && negb (isdigit c) then None
      else option_map (cons c) (strip_underscores (Some c) s')
  end.

Definition lower (c : ascii) : ascii :=
  let n := nat_of_ascii c in
  if (65 <=? n) && (n <=? 90) then ascii_of_nat (n + 32) else c.

(** Optional sign in front of a literal. *)
Definition take_sign (s : str) : bool * str :=
  match s with
  | c :: s' =>
      if Ascii.eqb c "-" then (true, s')
      else if Ascii.eqb c "+" then (false, s')
      else (false, s)
  | [] => (false, s)
  end.

(** Longest prefix of digits, and the rest. *)
Fixpoint span_digits (s : str) : str * str :=
  match s with
  | c :: s' =>
      if isdigit c then let (ds, r) := span_digits s' in (c :: ds, r)
      else ([], s)
  | [] => ([], [])
  end.

(** Exponent part: empty, or [e] or [E], an optional sign and at least
    one digit, up to the end of the literal. *)
Definition parse_exponent (s : str) : option Z :=
  match s with
  | [] => Some 0%Z
  | c :: s' =>
      if Ascii.eqb (lower c) "e" then
        let (neg, s1) := take_sign s' in
        let (ds, r) := span_digits s1 in
        match ds, r with
        | _ :: _, [] => Some (if neg then (- horner ds)%Z else horner ds)
        | _, _ => None
        end
      else None
  end.

(** Unsigned decimal literal: digits, an optional point and digits (at
    least one digit in all), an optional exponent.  The result [(m, x)]
    stands for [m * 10^x]. *)
Definition parse_decimal (s : str) : option (Z * Z) :=
  let (ip, s1) := span_digits s in
  let (fp, s2) :=
    match s1 with
    | c :: s1' => if Ascii.eqb c "." then span_digits s1' else ([], s1)
    | [] => ([], s1)
    end in
  match ip ++ fp with
  | [] => None
  | _ :: _ =>
      match parse_exponent s2 with
      | Some x => Some (horner (ip ++ fp), (x - Z.of_nat (length fp))%Z)
      | None => None
      end
  end.

(** [float(s)] for a string without surrounding whitespace: [None]
    stands for [ValueError]. *)
Definition float_of_str (s : str) : option float :=
  match strip_underscores None s with
  | None => None
  | Some s0 =>
      let (neg, body) := take_sign s0 in
      let name := map lower body in
      if list_eq_dec ascii_dec name "inf" then Some (Inf neg)
      else if list_eq_dec ascii_dec name "infinity" then Some (Inf neg)
      else if list_eq_dec ascii_dec name "nan" then Some NaN
      else
        match parse_decimal body with
        | Some (m, x) => Some (binary64_of_decimal neg m x)
        | None => None
        end
  end.

Definition sign_str (neg : bool) : str := if neg then "-" else "".

(** Fixed-point text of [(-1)^neg * r / 10^p] with [p] decimals. *)
Definition fixed_text (neg : bool) (r : Z) (p : nat) : str :=
  let k := (10 ^ Z.of_nat p)%Z in
  sign_str neg ++ digits (r / k)
  ++ match p with
     | O => []
     | S _ => "." ++ zfill p (digits (r mod k))
     end.

(** [format(x, ".pf")]: the exact value rounded to [p] decimals, ties to
    even; the sign of a nan is not shown. *)
Definition format_fixed (p : nat) (x : float) : str :=
  match x with
  | NaN => "nan"
  | Inf neg => sign_str neg ++ "inf"
  | Finite neg m e =>
      let (n', d') := scale2 (m * 10 ^ Z.of_nat p)%Z 1%Z (- e)%Z in
      fixed_text neg (round_half_even n' d') p
  end.

End Py.

Import Py.

(** ** The program *)

(** The only exception the loop can raise: [float] rejects a token.  It
    is not caught, so it ends the run. *)
Inductive exn : Set :=
| ValueError (token : str).

Inductive result (A : Type) : Type :=
| Ok (a : A)
| Raise (e : exn).

Arguments Ok {A} a.
Arguments Raise {A} e.

Definition bind {A B : Type} (r : result A) (k : A -> result B) : result B :=
  match r with
  | Ok a => k a
  | Raise e => Raise e
  end.

Notation "x <- r ;; k" := (bind r (fun x => k))
  (at level 61, r at next level, right associativity).

(** [f"{float(tok):w.pf}"]: numbers are right-justified. *)
Definition float_field (w p : nat) (tok : str) : result str :=
  match float_of_str tok with
  | Some x => Ok (rjust w (format_fixed p x))
  | None => Raise (ValueError tok)
  end.

(** [parts[i]]; the program indexes only below the length it has checked. *)
Definition part (parts : list str) (i : nat) : str := nth i parts [].

(** [parts[11] if len(parts) > 11 else ''] *)
Definition element_of (parts : list str) : str :=
  if 11 <? length parts then part parts 11 else [].

(** The f-string of the program.  Its pieces are evaluated from left to
    right, so the first token that [float] rejects is the one reported. *)
Definition format_line (parts : list str) : result str :=
  let record_type := part parts 0 in
  let atom_num := part parts 1 in
  let atom_name := part parts 2 in
  let res_name := part parts 3 in
  let chain_id := part parts 4 in
  let res_num := part parts 5 in
  let element := element_of parts in
  x <- float_field 8 3 (part parts 6) ;;
  y <- float_field 8 3 (part parts 7) ;;
  z <- float_field 8 3 (part parts 8) ;;
  occupancy <- float_field 6 2 (part parts 9) ;;
  b_factor <- float_field 6 2 (part parts 10) ;;
  Ok (ljust 6 record_type
      ++ rjust 5 atom_num
      ++ " "
      ++ ljust 4 atom_name
      ++ " "
      ++ rjust 3 res_name
      ++ " "
      ++ rjust 1 chain_id
      ++ rjust 4 res_num
      ++ "    "
      ++ x ++ y ++ z
      ++ occupancy ++ b_factor
      ++ "          "
      ++ rjust 2 element
      ++ [newline]).

(** What the loop body writes for one line; the constructor records which
    of the three [write] calls ran: the first one ([Reformat]) or one of
    the two that write the line as it is ([Copy]). *)
Inductive action : Set :=
| Reformat (formatted_line : str)
| Copy (line : str).

Definition written (a : action) : str :=
  match a with
  | Reformat s => s
  | Copy s => s
  end.

Definition has_prefix (line : str) : bool :=
  startswith line "ATOM" || startswith line "HETATM".

(** Body of the [for] loop. *)
Definition process_line (line : str) : result action :=
  if has_prefix line then
    let parts := split line in
    if 11 <=? length parts then
      formatted_line <- format_line parts ;; Ok (Reformat formatted_line)
    else Ok (Copy line)
  else Ok (Copy line).

(** The [for] loop: [out] is what has been written so far.  The result is
    the text written and the exception that stopped the loop, if any. *)
Fixpoint write_lines (lines : list str) (out : str) : str * option exn :=
  match lines with
  | [] => (out, None)
  | line :: rest =>
      match process_line line with
      | Ok a => write_lines rest (out ++ written a)
      | Raise e => (out, Some e)
      end
  end.

(** [fix_pdb_alignment(input_file, output_file)], from the text of the
    input file to the text of the output file. *)
Definition fix_pdb_alignment (input : str) : str * option exn :=
  write_lines (readlines input) [].

(** ** Vocabulary of the properties *)

(** Columns [a] to [b] of a line, counted from 1 as the PDB format does. *)
Definition cols (a b : nat) (s : str) : str :=
  firstn (b + 1 - a) (skipn (a - 1) s).

(** [t] occurs in [s] in full, as a contiguous run. *)
Definition occurs_in (t s : str) : Prop :=
  exists pre post, s = pre ++ t ++ post.

Fixpoint occurs_inb (t s : str) : bool :=
  startswith s t
  || match s with
     | [] => false
     | _ :: s' => occurs_inb t s'
     end.

(** A token: a non-empty run of characters that are not whitespace. *)
Definition no_space (t : str) : Prop := Forall (fun c => isspace c = false) t.

Definition is_token (t : str) : Prop := t <> [] /\ no_space t.

(** The text is empty or starts with whitespace. *)
Definition blank_led (s : str) : Prop :=
  match s with
  | [] => True
  | c :: _ => isspace c = true
  end.

Definition all_digits (s : str) : Prop := Forall (fun c => isdigit c = true) s.

(** A float as [float_of_str] builds it: the significand is not negative. *)
Definition float_ok (x : float) : Prop :=
  match x with
  | Finite _ m _ => (0 <= m)%Z
  | _ => True
  end.

(** A text cut into lines: no line is empty, a newline is the last
    character of every line but possibly the last one, and occurs nowhere
    else. *)
Definition no_newline (s : str) : Prop := Forall (fun c => c <> newline) s.

Inductive lines_ok : list str -> Prop :=
| lines_nil : lines_ok []
| lines_last (body : str) :
    body <> [] -> no_newline body -> lines_ok [body]
| lines_cons (body : str) (ls : list str) :
    no_newline body -> lines_ok ls -> lines_ok ((body ++ [newline]) :: ls).

(** The numeric tokens of a record are the tokens 7 to 11, [parts[6]] to
    [parts[10]]. *)
Definition numeric_index (i : nat) : Prop := 6 <= i <= 10.

(** A line on which the loop body raises: it has the prefix and at least
    eleven tokens, and [float] rejects one of its numeric tokens. *)
Definition offending (line : str) : Prop :=
  has_prefix line = true
  /\ 11 <= length (split line)
  /\ exists i, numeric_index i /\ float_of_str (part (split line) i) = None.

(** [acts] are the results of the loop body on [lines], line by line, all
    without error. *)
Definition processed (lines : list str) (acts : list action) : Prop :=
  Forall2 (fun line a => process_line line = Ok a) lines acts.

(** A text token is no wider than the field; a numeric token is accepted
    by [float] and its rendering with [p] decimals is no wider than the
    field. *)
Definition text_fits (w : nat) (tok : str) : bool := length tok <=? w.

Definition number_fits (w p : nat) (tok : str) : bool :=
  match float_of_str tok with
  | Some x => length (format_fixed p x) <=? w
  | None => false
  end.

(** Every value of the record fits the width of its field. *)
Definition fits_nominal (parts : list str) : bool :=
  text_fits 6 (part parts 0) && text_fits 5 (part parts 1)
  && text_fits 4 (part parts 2) && text_fits 3 (part parts 3)
  && text_fits 1 (part parts 4) && text_fits 4 (part parts 5)
  && number_fits 8 3 (part parts 6) && number_fits 8 3 (part parts 7)
  && number_fits 8 3 (part parts 8)
  && number_fits 6 2 (part parts 9) && number_fits 6 2 (part parts 10)
  && text_fits 2 (element_of parts).

(** The values that the format writes right after another field leave a
    blank in front: the record type or the serial is narrower than its
    field, and so are the residue number, the y and z coordinates, the
    occupancy and the B-factor. *)
Definition separated (parts : list str) : bool :=
  ((length (part parts 0) <? 6) || (length (part parts 1) <? 5))
  && (length (part parts 5) <? 4)
  && number_fits 7 3 (part parts 7) && number_fits 7 3 (part parts 8)
  && number_fits 5 2 (part parts 9) && number_fits 5 2 (part parts 10).

(** The condition of a stable line: if the loop rewrites the line, its
    values fit their fields and stay apart. *)
Definition well_spaced (line : str) : Prop :=
  has_prefix line = true -> 11 <= length (split line) ->
  fits_nominal (split line) = true /\ separated (split line) = true.

(** ** Sample records and inputs *)

(** The record of the format description, loosely spaced. *)
Definition sample_line : str :=
  "ATOM 1 N MET A 1 10.0 20.0 30.0 1.00 20.00 N" ++ [newline].

(** What the program writes for it. *)
Definition sample_formatted : str :=
  "ATOM      1 N    MET A   1      10.000  20.000  30.000  1.00 20.00           N"
  ++ [newline].

(** The same record without an element symbol. *)
Definition sample_line_11 : str :=
  "ATOM 1 N MET A 1 10.0 20.0 30.0 1.00 20.00" ++ [newline].

Definition sample_11_formatted : str :=
  "ATOM      1 N    MET A   1      10.000  20.000  30.000  1.00 20.00            "
  ++ [newline].

(** The same record with two more tokens at the end. *)
Definition sample_line_14 : str :=
  "ATOM 1 N MET A 1 10.0 20.0 30.0 1.00 20.00 N 1+ extra" ++ [newline].

(** A record whose first token is [ATOMIC]. *)
Definition atomic_line : str :=
  "ATOMIC 1 N MET A 1 10.0 20.0 30.0 1.00 20.00 N" ++ [newline].

(** The sample record after one blank: its first token is [ATOM]. *)
Definition indented_line : str :=
  " ATOM 1 N MET A 1 10.0 20.0 30.0 1.00 20.00 N" ++ [newline].

(** A record whose x token has twelve characters. *)
Definition long_number_line : str :=
  "ATOM 1 N MET A 1 0.1234567890 20.0 30.0 1.00 20.00 N" ++ [newline].

(** A record with an atom name of six characters. *)
Definition long_name_line : str :=
  "ATOM 1 CALPHA MET A 1 10.0 20.0 30.0 1.00 20.00 C" ++ [newline].

Definition long_name_formatted : str :=
  "ATOM      1 CALPHA MET A   1      10.000  20.000  30.000  1.00 20.00           C"
  ++ [newline].

(** A record with the numbers of the rendering examples. *)
Definition rendering_line : str :=
  "ATOM 1 N MET A 1 1 1 -12.3456 1 1 N" ++ [newline].

(** A record with a residue number of four digits. *)
Definition crowded_line : str :=
  "ATOM 1 N MET A 1000 10.0 20.0 30.0 1.00 20.00 N" ++ [newline].

(** An input of three lines: the second one has a coordinate that is not
    a number. *)
Definition broken_input : str :=
  "HEADER test" ++ [newline]
  ++ "ATOM 1 N MET A 1 10.0 abc 30.0 1.00 20.00 N" ++ [newline]
  ++ "END" ++ [newline].

(** An input of four lines, with a short [ATOM] line; the last line has
    no newline. *)
Definition mixed_input : str :=
  "HEADER test" ++ [newline]
  ++ sample_line
  ++ "ATOM 2 CA MET A 1 11.0 21.0" ++ [newline]
  ++ "END".

Definition mixed_output : str :=
  "HEADER test" ++ [newline]
  ++ sample_formatted
  ++ "ATOM 2 CA MET A 1 11.0 21.0" ++ [newline]
  ++ "END".

(** ** Text mode *)

Definition carriage_return : ascii := ascii_of_nat 13.

(** What [open(path, 'r')] hands over of the characters of a file: with
    the default [newline=None], a carriage return followed by a line feed
    and a carriage return alone both arrive as one newline.  Written text
    is stored as it is (the line separator of a POSIX system). *)
Fixpoint universal_newlines (raw : str) : str :=
  match raw with
  | [] => []
  | c :: rest =>
      if Ascii.eqb c carriage_return then
        newline
        :: match rest with
           | [] => []
           | c' :: rest' =>
               if Ascii.eqb c' newline then universal_newlines rest'
               else universal_newlines rest
           end
      else c :: universal_newlines rest
  end.

(** ** Files *)

(** A file system, as far as the program sees it.  A path leads to a
    file, the one it names or would create; several paths (other
    spellings, links) may lead to the same file.  A file is absent, or
    cannot be opened for reading (a directory, a file without read
    permission), or holds characters that decode to text, or holds
    characters whose decoding fails at some point: then [delivered] is the
    text of the lines the reader hands over before [UnicodeDecodeError] is
    raised.  [can_write] tells whether [open(path, 'w')] succeeds on the
    file. *)
Definition path := str.

Definition file_id := nat.

Inductive file_state : Type :=
| Absent
| Denied
| Holds (raw : str)
| Garbled (delivered : str).

Record filesystem : Type := {
  resolve : path -> file_id;
  state : file_id -> file_state;
  can_write : file_id -> bool
}.

(** The file system after [text] has replaced what the file [f] held. *)
Definition store (fs : filesystem) (f : file_id) (text : str) : filesystem :=
  {| resolve := resolve fs;
     state := fun g => if Nat.eqb g f then Holds text else state fs g;
     can_write := can_write fs |}.

(** What ends the call: an [open] that fails ([FileNotFoundError] for an
    input that does not exist, [OSError] or one of its subclasses for a
    file that cannot be opened), a decoding that fails, or the exception
    of the loop, which nothing catches. *)
Inductive io_exn : Set :=
| FileNotFoundError (p : path)
| OSError (p : path)
| UnicodeDecodeError (p : path)
| Uncaught (e : exn).

(** [fix_pdb_alignment(input_file, output_file)] on the file system.  The
    [with] statement opens the input first; opening the output with mode
    ['w'] creates it or cuts it to nothing; only then does the loop read
    the input, so it reads what the file holds after the output was
    opened.  Both files are closed when the block is left, also by an
    exception, so what was written stays in the output file.  The last
    case of the inner [match] cannot occur: the file has been opened. *)
Definition fix_pdb_alignment_files (input_file output_file : path)
    (fs : filesystem) : filesystem * option io_exn :=
  let i := resolve fs input_file in
  let o := resolve fs output_file in
  match state fs i with
  | Absent => (fs, Some (FileNotFoundError input_file))
  | Denied => (fs, Some (OSError input_file))
  | Holds _ | Garbled _ =>
      if can_write fs o then
        let opened := store fs o [] in
        match state opened i with
        | Holds raw =>
            let (out, e) := fix_pdb_alignment (universal_newlines raw) in
            (store opened o out, option_map Uncaught e)
        | Garbled delivered =>
            let (out, e) := fix_pdb_alignment delivered in
            (store opened o out,
             Some match e with
                  | Some e' => Uncaught e'
                  | None => UnicodeDecodeError input_file
                  end)
        | Absent | Denied => (opened, Some (FileNotFoundError input_file))
        end
      else (fs, Some (OSError output_file))
  end.

(** The two paths of the script. *)
Definition input_file : path :=
  "/workspaces/cPEPmatch/lib/test_system/1ycr-mod.pdb".

Definition output_file : path :=
  "/workspaces/cPEPmatch/lib/test_system/1ycr-mod-fixed.pdb".

(** ** More vocabulary *)

Definition ends_with_newline (s : str) : Prop :=
  exists body, s = body ++ [newline].

(** The text of a numeric field: [nan], an infinity, or an optional
    minus sign, digits, a point and exactly [p] digits. *)
Definition fixed_point_text (p : nat) (r : str) : Prop :=
  r = "nan" \/ r = "inf" \/ r = "-inf"
  \/ exists neg ip fp,
       r = sign_str neg ++ ip ++ "." ++ fp
       /\ ip <> [] /\ all_digits ip /\ all_digits fp /\ length fp = p.

(** A record with two tokens that are not numbers. *)
Definition twice_broken_line : str :=
  "ATOM 1 N MET A 1 10.0 abc 30.0 xyz 20.00 N" ++ [newline].

(** A record separated by tabs, with numbers in other notations. *)
Definition tabbed_line : str :=
  "HETATM" ++ [ascii_of_nat 9] ++ "7 O HOH B 12 1e1 -2.5E0 +3_0 .5 nan O".

Definition tabbed_formatted : str :=
  "HETATM    7 O    HOH B  12      10.000  -2.500  30.000  0.50   nan           O"
  ++ [newline].

(** A file system with two files: the input of the script, which holds
    [raw], and another one that does not exist yet; every other path
    leads to that one. *)
Definition one_file (raw : str) : filesystem :=
  {| resolve :=
       fun p => if list_eq_dec ascii_dec p input_file then 0 else 1;
     state := fun f => if Nat.eqb f 0 then Holds raw else Absent;
     can_write := fun _ => true |}.

(** A file system in which the two paths of the script are links to one
    file, which holds [raw]. *)
Definition linked_file (raw : str) : filesystem :=
  {| resolve := fun _ => 0;
     state := fun _ => Holds raw;
     can_write := fun _ => true |}.




(** A record of eleven tokens with a coordinate of 27 characters. *)
Definition wide_line_11 : str :=
  "ATOM 1 N MET A 1 1e22 20.0 30.0 1.00 20.00" ++ [newline].

(** A header line that ends with a carriage return and a line feed, as
    the file holds it, and as it is handed to the loop. *)
Definition crlf_input : str :=
  "HEADER x" ++ [carriage_return; newline].

Definition crlf_delivered : str := "HEADER x" ++ [newline].

(** Characters of a formatted line before its newline: the space, or a
    character that is no whitespace. *)
Definition space_or_ink (c : ascii) : Prop := c = space \/ isspace c = false.

(** * Part II: lemmas and properties *)

(** ** The built-ins on concrete values *)

Example split_example :
  split ("  ATOM   1  N" ++ [ascii_of_nat 9] ++ "MET " ++ [newline]) =
  ["ATOM"; "1"; "N"; "MET"].
Proof. reflexivity. Qed.

Example readlines_example :
  readlines ("ab" ++ [newline] ++ [newline] ++ "c") =
  ["ab" ++ [newline]; [newline]; "c"].
Proof. reflexivity. Qed.

Example float_accepts :
  map float_of_str ["1"; "-.5"; "1."; "1e3"; "1_000"; "-INF"; "nan"] =
  [Some (Finite false 4503599627370496 (-52));
   Some (Finite true 4503599627370496 (-53));
   Some (Finite false 4503599627370496 (-52));
   Some (Finite false 8796093022208000 (-43));
   Some (Finite false 8796093022208000 (-43));
   Some (Inf true); Some NaN].
Proof. vm_compute. reflexivity. Qed.

Example float_rejects :
  map float_of_str [""; "-"; "."; "abc"; "1e"; "1__0"; "_1"; "1_"; "0x10";
                    "1.2.3"; "infinit"; "N"] =
  repeat None 12.
Proof. vm_compute. reflexivity. Qed.

(** Rounding follows the binary value: [0.125] is a tie and goes to the
    even neighbour, [2.675] lies below the tie, [0.0005] above it. *)
Example format_fixed_rounding :
  map (fun s => option_map (format_fixed 2) (float_of_str s))
      ["0.125"; "0.375"; "2.675"; "1e400"; "-0.001"] =
  [Some "0.12"; Some "0.38"; Some "2.67"; Some "inf"; Some "-0.00"]
  /\ map (fun s => option_map (format_fixed 3) (float_of_str s))
         ["0.0005"; "1.0005"; "1e22"] =
     [Some "0.001"; Some "1.000"; Some "10000000000000000000000.000"].
Proof. split; vm_compute; reflexivity. Qed.

Example sample_line_formatted :
  process_line sample_line = Ok (Reformat sample_formatted).
Proof. vm_compute. reflexivity. Qed.

(** ** Padding *)

Section Padding.

Variables (w : nat) (s : str).

Lemma length_ljust : length (ljust w s) = Nat.max w (length s).
Proof. unfold ljust. rewrite length_app, repeat_length. lia. Qed.

Lemma length_rjust : length (rjust w s) = Nat.max w (length s).
Proof. unfold rjust. rewrite length_app, repeat_length. lia. Qed.

Lemma length_ljust_fit : text_fits w s = true -> length (ljust w s) = w.
Proof.
  unfold text_fits. intros H. apply Nat.leb_le in H.
  rewrite length_ljust. lia.
Qed.

Lemma length_rjust_fit : text_fits w s = true -> length (rjust w s) = w.
Proof.
  unfold text_fits. intros H. apply Nat.leb_le in H.
  rewrite length_rjust. lia.
Qed.

Lemma ljust_wide : w <= length s -> ljust w s = s.
Proof.
  intros H. unfold ljust. replace (w - length s) with 0 by lia.
  apply app_nil_r.
Qed.

Lemma rjust_wide : w <= length s -> rjust w s = s.
Proof.
  intros H. unfold rjust. now replace (w - length s) with 0 by lia.
Qed.

End Padding.

(** ** Columns of a concatenation *)

Lemma cols_take (n : nat) (f rest : str) :
  length f = n -> cols 1 n (f ++ rest) = f.
Proof.
  intros <-. unfold cols. simpl skipn.
  replace (length f + 1 - 1) with (length f + 0) by lia.
  rewrite firstn_app_2. simpl. apply app_nil_r.
Qed.

Lemma cols_skip (a b n : nat) (f rest : str) :
  length f = n -> n < a -> a <= b ->
  cols a b (f ++ rest) = cols (a - n) (b - n) rest.
Proof.
  intros <- Ha Hb. unfold cols.
  replace (a - 1) with (length f + (a - length f - 1)) by lia.
  rewrite skipn_app.
  replace (length f + (a - length f - 1) - length f)
    with (a - length f - 1) by lia.
  rewrite skipn_all2 by lia. simpl.
  f_equal. lia.
Qed.

(** ** The formatting branch *)

Lemma float_field_ok (w p : nat) (tok : str) (x : float) :
  float_of_str tok = Some x ->
  float_field w p tok = Ok (rjust w (format_fixed p x)).
Proof. intros H. unfold float_field. now rewrite H. Qed.

Lemma float_field_inv (w p : nat) (tok out : str) :
  float_field w p tok = Ok out ->
  exists x, float_of_str tok = Some x /\ out = rjust w (format_fixed p x).
Proof.
  unfold float_field. destruct (float_of_str tok) as [x|]; [|discriminate].
  intros [= <-]. now exists x.
Qed.

Lemma float_field_raise (w p : nat) (tok : str) (e : exn) :
  float_field w p tok = Raise e ->
  float_of_str tok = None /\ e = ValueError tok.
Proof.
  unfold float_field. destruct (float_of_str tok); [discriminate|].
  now intros [= <-].
Qed.

Lemma number_fits_inv (w p : nat) (tok : str) :
  number_fits w p tok = true ->
  exists x, float_of_str tok = Some x /\ length (format_fixed p x) <= w.
Proof.
  unfold number_fits. destruct (float_of_str tok) as [x|]; [|discriminate].
  intros H. apply Nat.leb_le in H. now exists x.
Qed.

(** The line the first [write] call receives when the five numbers are
    accepted. *)
Lemma format_line_ok (parts : list str) (x y z occ b : float) :
  float_of_str (part parts 6) = Some x ->
  float_of_str (part parts 7) = Some y ->
  float_of_str (part parts 8) = Some z ->
  float_of_str (part parts 9) = Some occ ->
  float_of_str (part parts 10) = Some b ->
  format_line parts =
  Ok (ljust 6 (part parts 0) ++ rjust 5 (part parts 1) ++ " "
      ++ ljust 4 (part parts 2) ++ " " ++ rjust 3 (part parts 3) ++ " "
      ++ rjust 1 (part parts 4) ++ rjust 4 (part parts 5) ++ "    "
      ++ rjust 8 (format_fixed 3 x) ++ rjust 8 (format_fixed 3 y)
      ++ rjust 8 (format_fixed 3 z)
      ++ rjust 6 (format_fixed 2 occ) ++ rjust 6 (format_fixed 2 b)
      ++ "          " ++ rjust 2 (element_of parts) ++ [newline]).
Proof.
  intros Hx Hy Hz Ho Hb. unfold format_line.
  rewrite (float_field_ok 8 3 _ Hx), (float_field_ok 8 3 _ Hy),
    (float_field_ok 8 3 _ Hz), (float_field_ok 6 2 _ Ho),
    (float_field_ok 6 2 _ Hb).
  reflexivity.
Qed.

Lemma format_line_inv (parts : list str) (out : str) :
  format_line parts = Ok out ->
  exists x y z occ b,
    float_of_str (part parts 6) = Some x
    /\ float_of_str (part parts 7) = Some y
    /\ float_of_str (part parts 8) = Some z
    /\ float_of_str (part parts 9) = Some occ
    /\ float_of_str (part parts 10) = Some b.
Proof.
  unfold format_line, float_field.
  destruct (float_of_str (part parts 6)) as [x|]; [|discriminate].
  destruct (float_of_str (part parts 7)) as [y|]; [|discriminate].
  destruct (float_of_str (part parts 8)) as [z|]; [|discriminate].
  destruct (float_of_str (part parts 9)) as [occ|]; [|discriminate].
  destruct (float_of_str (part parts 10)) as [b|]; [|discriminate].
  intros _. now exists x, y, z, occ, b.
Qed.

(** The loop body, branch by branch. *)
Lemma process_line_copy (line : str) :
  has_prefix line = false \/ length (split line) < 11 ->
  process_line line = Ok (Copy line).
Proof.
  intros H. unfold process_line.
  destruct (has_prefix line); [|reflexivity].
  destruct H as [H|H]; [discriminate|].
  apply Nat.leb_gt in H. now rewrite H.
Qed.

Lemma process_line_format (line : str) :
  has_prefix line = true -> 11 <= length (split line) ->
  process_line line =
  (formatted_line <- format_line (split line) ;; Ok (Reformat formatted_line)).
Proof.
  intros Hp Hn. unfold process_line. rewrite Hp.
  apply Nat.leb_le in Hn. now rewrite Hn.
Qed.

(** ** Column layout *)

Lemma skipn_drop (k n : nat) (f rest : str) :
  length f = n -> n <= k -> skipn k (f ++ rest) = skipn (k - n) rest.
Proof.
  intros <- H. rewrite skipn_app, skipn_all2 by lia. reflexivity.
Qed.

Section Layout.

Variables f1 f2 f3 f4 f5 f6 f7 f8 f9 f10 f11 f12 f13 f14 f15 f16 f17 : str.
Hypothesis L1 : length f1 = 6.
Hypothesis L2 : length f2 = 5.
Hypothesis L3 : length f3 = 1.
Hypothesis L4 : length f4 = 4.
Hypothesis L5 : length f5 = 1.
Hypothesis L6 : length f6 = 3.
Hypothesis L7 : length f7 = 1.
Hypothesis L8 : length f8 = 1.
Hypothesis L9 : length f9 = 4.
Hypothesis L10 : length f10 = 4.
Hypothesis L11 : length f11 = 8.
Hypothesis L12 : length f12 = 8.
Hypothesis L13 : length f13 = 8.
Hypothesis L14 : length f14 = 6.
Hypothesis L15 : length f15 = 6.
Hypothesis L16 : length f16 = 10.
Hypothesis L17 : length f17 = 2.

Let out : str :=
  f1 ++ f2 ++ f3 ++ f4 ++ f5 ++ f6 ++ f7 ++ f8 ++ f9 ++ f10 ++ f11
  ++ f12 ++ f13 ++ f14 ++ f15 ++ f16 ++ f17 ++ [newline].

Local Ltac walk :=
  unfold out;
  repeat (erewrite cols_skip by (eassumption || lia); simpl Nat.sub);
  now apply cols_take.

Lemma layout_columns :
  cols 1 6 out = f1 /\ cols 7 11 out = f2 /\ cols 12 12 out = f3
  /\ cols 13 16 out = f4 /\ cols 17 17 out = f5 /\ cols 18 20 out = f6
  /\ cols 21 21 out = f7 /\ cols 22 22 out = f8 /\ cols 23 26 out = f9
  /\ cols 27 30 out = f10 /\ cols 31 38 out = f11 /\ cols 39 46 out = f12
  /\ cols 47 54 out = f13 /\ cols 55 60 out = f14 /\ cols 61 66 out = f15
  /\ cols 67 76 out = f16 /\ cols 77 78 out = f17
  /\ skipn 78 out = [newline].
Proof.
  repeat split; try walk.
  unfold out.
  repeat (erewrite skipn_drop by (eassumption || lia); simpl Nat.sub).
  reflexivity.
Qed.

End Layout.

Lemma process_line_reformat_inv (line out : str) :
  process_line line = Ok (Reformat out) ->
  has_prefix line = true /\ 11 <= length (split line)
  /\ format_line (split line) = Ok out.
Proof.
  unfold process_line.
  destruct (has_prefix line); [|discriminate].
  destruct (11 <=? length (split line)) eqn:Hn; [|discriminate].
  apply Nat.leb_le in Hn.
  destruct (format_line (split line)) as [s|e]; simpl; [|discriminate].
  intros [= <-]. auto.
Qed.

Lemma fits_nominal_inv (parts : list str) :
  fits_nominal parts = true ->
  (text_fits 6 (part parts 0) = true /\ text_fits 5 (part parts 1) = true
   /\ text_fits 4 (part parts 2) = true /\ text_fits 3 (part parts 3) = true
   /\ text_fits 1 (part parts 4) = true /\ text_fits 4 (part parts 5) = true)
  /\ (number_fits 8 3 (part parts 6) = true
      /\ number_fits 8 3 (part parts 7) = true
      /\ number_fits 8 3 (part parts 8) = true
      /\ number_fits 6 2 (part parts 9) = true
      /\ number_fits 6 2 (part parts 10) = true)
  /\ text_fits 2 (element_of parts) = true.
Proof.
  unfold fits_nominal. intros H.
  repeat (apply andb_prop in H; destruct H as [H ?]).
  repeat split; assumption.
Qed.

Lemma length_blank (n : nat) : length (repeat space n) = n.
Proof. apply repeat_length. Qed.

(** The formatted line of a record whose values fit: the eighteen pieces
    and their columns. *)
Lemma format_line_columns (parts : list str) :
  fits_nominal parts = true ->
  exists x y z occ b out,
    float_of_str (part parts 6) = Some x
    /\ float_of_str (part parts 7) = Some y
    /\ float_of_str (part parts 8) = Some z
    /\ float_of_str (part parts 9) = Some occ
    /\ float_of_str (part parts 10) = Some b
    /\ format_line parts = Ok out
    /\ cols 1 6 out = ljust 6 (part parts 0)
    /\ cols 7 11 out = rjust 5 (part parts 1)
    /\ cols 12 12 out = " "
    /\ cols 13 16 out = ljust 4 (part parts 2)
    /\ cols 17 17 out = " "
    /\ cols 18 20 out = rjust 3 (part parts 3)
    /\ cols 21 21 out = " "
    /\ cols 22 22 out = rjust 1 (part parts 4)
    /\ cols 23 26 out = rjust 4 (part parts 5)
    /\ cols 27 30 out = "    "
    /\ cols 31 38 out = rjust 8 (format_fixed 3 x)
    /\ cols 39 46 out = rjust 8 (format_fixed 3 y)
    /\ cols 47 54 out = rjust 8 (format_fixed 3 z)
    /\ cols 55 60 out = rjust 6 (format_fixed 2 occ)
    /\ cols 61 66 out = rjust 6 (format_fixed 2 b)
    /\ cols 67 76 out = "          "
    /\ cols 77 78 out = rjust 2 (element_of parts)
    /\ skipn 78 out = [newline].
Proof.
  intros H. apply fits_nominal_inv in H.
  destruct H as [(T0 & T1 & T2 & T3 & T4 & T5) [(N6 & N7 & N8 & N9 & N10) T11]].
  apply number_fits_inv in N6, N7, N8, N9, N10.
  destruct N6 as (x & Hx & Wx), N7 as (y & Hy & Wy), N8 as (z & Hz & Wz),
    N9 as (occ & Ho & Wo), N10 as (b & Hb & Wb).
  exists x, y, z, occ, b. eexists.
  repeat (split; [eassumption|]).
  split; [apply (format_line_ok _ Hx Hy Hz Ho Hb)|].
  apply layout_columns;
    try reflexivity;
    try (apply length_ljust_fit; assumption);
    try (apply length_rjust_fit; assumption);
    rewrite length_rjust; lia.
Qed.


(** ** The element symbol *)

Lemma element_of_absent (parts : list str) :
  length parts <= 11 -> element_of parts = [].
Proof.
  intros H. unfold element_of.
  destruct (11 <? length parts) eqn:E; [|reflexivity].
  apply Nat.ltb_lt in E. lia.
Qed.

Lemma element_of_present (parts : list str) (e : str) :
  nth_error parts 11 = Some e -> element_of parts = e.
Proof.
  intros H. unfold element_of, part.
  assert (Hlt : 11 < length parts)
    by (apply nth_error_Some; rewrite H; discriminate).
  apply Nat.ltb_lt in Hlt. rewrite Hlt.
  now apply nth_error_nth.
Qed.

(** The line of the formatting branch always ends with the element field
    and the newline. *)
Lemma format_line_tail (parts : list str) (out : str) :
  format_line parts = Ok out ->
  exists body, out = body ++ rjust 2 (element_of parts) ++ [newline].
Proof.
  intros H.
  destruct (format_line_inv _ H)
    as (x & y & z & occ & b & Hx & Hy & Hz & Ho & Hb).
  rewrite (format_line_ok _ Hx Hy Hz Ho Hb) in H. injection H as <-.
  exists (ljust 6 (part parts 0) ++ rjust 5 (part parts 1) ++ " "
          ++ ljust 4 (part parts 2) ++ " " ++ rjust 3 (part parts 3) ++ " "
          ++ rjust 1 (part parts 4) ++ rjust 4 (part parts 5) ++ "    "
          ++ rjust 8 (format_fixed 3 x) ++ rjust 8 (format_fixed 3 y)
          ++ rjust 8 (format_fixed 3 z)
          ++ rjust 6 (format_fixed 2 occ) ++ rjust 6 (format_fixed 2 b)
          ++ "          ").
  repeat (rewrite <- app_assoc; simpl app). reflexivity.
Qed.

(** C9, as amended.  For a rewritten line the element symbol is the
    empty string when the line has exactly eleven tokens and the twelfth
    token when there is one.  The element field, right-justified in width
    2, is the last field of the output line, just before the newline; it
    is two spaces when the symbol is empty.  The field is columns 77-78
    when the values of the record fit their fields; a value that is too
    wide pushes it to the right. *)
Theorem element_symbol_field (line out : str) :
  process_line line = Ok (Reformat out) ->
  let parts := split line in
  let element := element_of parts in
  (length parts = 11 -> element = [] /\ rjust 2 element = "  ")
  /\ (forall e, nth_error parts 11 = Some e -> element = e)
  /\ (exists body, out = body ++ rjust 2 element ++ [newline])
  /\ (fits_nominal parts = true ->
      cols 77 78 out = rjust 2 element
      /\ (length parts = 11 -> cols 77 78 out = "  ")).
Proof.
  intros H parts element.
  destruct (process_line_reformat_inv _ H) as (Hp & Hn & Hf).
  assert (Habs : length parts = 11 -> element = [] /\ rjust 2 element = "  ").
  { intros L. unfold element. rewrite element_of_absent by lia. now split. }
  split; [exact Habs|].
  split; [intros e; apply element_of_present|].
  split; [apply (format_line_tail _ Hf)|].
  intros Hfit.
  destruct (format_line_columns _ Hfit)
    as (x & y & z & occ & b & out' & _ & _ & _ & _ & _ & Hout & Hcols).
  fold parts in Hf.
  assert (out' = out) as -> by (unfold parts in *; congruence).
  assert (C77 : cols 77 78 out = rjust 2 element) by (apply Hcols).
  split; [exact C77|].
  intros L. rewrite C77. now apply Habs.
Qed.

(** The sample record without element symbol ends with two spaces in
    columns 77-78. *)
Lemma element_symbol_field_witness :
  element_of (split sample_line_11) = []
  /\ cols 77 78 sample_11_formatted = "  ".
Proof.
  assert (H : process_line sample_line_11 = Ok (Reformat sample_11_formatted))
    by (vm_compute; reflexivity).
  destruct (@element_symbol_field sample_line_11 sample_11_formatted H)
    as (Habs & _ & _ & Hcols).
  split.
  - apply Habs. reflexivity.
  - apply Hcols; reflexivity.
Defined.

(** ** Splitting on whitespace *)

Lemma push_tokens (t : str) (ts : list str) :
  no_space t -> Forall is_token ts -> Forall is_token (push t ts).
Proof.
  intros Ht Hts. destruct t as [|c t]; simpl; [assumption|].
  constructor; [|assumption]. split; [discriminate|assumption].
Qed.

Lemma tokens_spec (s : str) :
  no_space (fst (tokens s)) /\ Forall is_token (snd (tokens s)).
Proof.
  induction s as [|c s [IHt IHts]]; simpl.
  - split; constructor.
  - destruct (tokens s) as [t ts]. simpl in *.
    destruct (isspace c) eqn:Hc; simpl.
    + split; [constructor|]. now apply push_tokens.
    + split; [|assumption]. now constructor.
Qed.

(** Every element of [s.split()] is a token. *)
Lemma split_tokens (s : str) : Forall is_token (split s).
Proof.
  unfold split. destruct (tokens_spec s) as [Ht Hts].
  destruct (tokens s) as [t ts]. now apply push_tokens.
Qed.

Lemma part_token (s : str) (i : nat) :
  i < length (split s) -> is_token (part (split s) i).
Proof.
  intros Hi. unfold part.
  apply (proj1 (Forall_forall _ _) (split_tokens s)).
  now apply nth_In.
Qed.

(** Leading whitespace is skipped. *)
Lemma split_skip (c : ascii) (s : str) :
  isspace c = true -> split (c :: s) = split s.
Proof.
  intros Hc. unfold split. simpl. destruct (tokens s) as [t ts].
  rewrite Hc. reflexivity.
Qed.

Lemma split_skip_blank (n : nat) (s : str) :
  split (repeat space n ++ s) = split s.
Proof.
  induction n as [|n IH]; simpl; [reflexivity|].
  now rewrite split_skip.
Qed.

Lemma tokens_app (t s : str) :
  no_space t ->
  tokens (t ++ s) = (t ++ fst (tokens s), snd (tokens s)).
Proof.
  induction 1 as [|c t Hc _ IH]; simpl.
  - now destruct (tokens s).
  - rewrite IH, Hc. reflexivity.
Qed.

(** A token that ends the text, or is followed by whitespace, is the
    first element of the result. *)
Lemma split_token_end (t : str) : is_token t -> split t = [t].
Proof.
  intros [Hne Ht]. unfold split.
  rewrite <- (app_nil_r t) at 1. rewrite (tokens_app _ Ht). simpl.
  rewrite app_nil_r. destruct t; [contradiction|reflexivity].
Qed.

Lemma split_token_next (t : str) (c : ascii) (s : str) :
  is_token t -> isspace c = true ->
  split (t ++ c :: s) = t :: split s.
Proof.
  intros [Hne Ht] Hc. unfold split.
  rewrite (tokens_app _ Ht). simpl.
  destruct (tokens s) as [t0 ts]. rewrite Hc. simpl.
  rewrite app_nil_r. destruct t; [contradiction|reflexivity].
Qed.

(** ** Lines of a text *)

Lemma readlines_concat (s : str) : concat (readlines s) = s.
Proof.
  induction s as [|c s IH]; simpl; [reflexivity|].
  destruct (Ascii.eqb c newline).
  - simpl. now rewrite IH.
  - destruct (readlines s) as [|l ls]; simpl in *; now rewrite <- IH.
Qed.

Lemma lines_ok_grow (c : ascii) (l : str) (ls : list str) :
  c <> newline -> lines_ok (l :: ls) -> lines_ok ((c :: l) :: ls).
Proof.
  intros Hc H. inversion H as [|body Hne Hb|body ls' Hb Hls]; subst.
  - apply lines_last; [discriminate|now constructor].
  - apply (lines_cons (body := c :: body)); [now constructor|assumption].
Qed.

Lemma readlines_ok (s : str) : lines_ok (readlines s).
Proof.
  induction s as [|c s IH]; simpl; [constructor|].
  destruct (Ascii.eqb_spec c newline) as [->|Hc].
  - apply (lines_cons (body := [])); [constructor|assumption].
  - destruct (readlines s) as [|l ls].
    + apply lines_last; [discriminate|]. constructor; [assumption|constructor].
    + now apply lines_ok_grow.
Qed.

Lemma readlines_body (body : str) :
  body <> [] -> no_newline body -> readlines body = [body].
Proof.
  intros Hne Hb. induction Hb as [|c body Hc Hb IH]; [contradiction|].
  simpl. destruct (Ascii.eqb_spec c newline) as [->|_]; [contradiction|].
  destruct body as [|c' body]; [reflexivity|].
  rewrite IH by discriminate. reflexivity.
Qed.

Lemma readlines_line (body rest : str) :
  no_newline body ->
  readlines (body ++ newline :: rest) = (body ++ [newline]) :: readlines rest.
Proof.
  induction 1 as [|c body Hc Hb IH]; simpl; [reflexivity|].
  destruct (Ascii.eqb_spec c newline) as [->|_]; [contradiction|].
  rewrite IH. reflexivity.
Qed.

(** Reading back a text written line by line gives the lines written. *)
Lemma readlines_of_lines (ls : list str) :
  lines_ok ls -> readlines (concat ls) = ls.
Proof.
  induction 1 as [|body Hne Hb|body ls Hb Hls IH]; simpl.
  - reflexivity.
  - rewrite app_nil_r. now apply readlines_body.
  - rewrite <- app_assoc. simpl. rewrite readlines_line by assumption.
    now rewrite IH.
Qed.

(** ** Decimal digits *)

Lemma isdigit_not_space (c : ascii) : isdigit c = true -> isspace c = false.
Proof.
  unfold isdigit, isspace. set (n := nat_of_ascii c). intros H.
  apply andb_prop in H. destruct H as [H1 H2].
  apply Nat.leb_le in H1. apply Nat.leb_le in H2.
  repeat (apply orb_false_intro);
    try (apply andb_false_intro1; apply Nat.leb_gt; lia);
    try (apply andb_false_intro2; apply Nat.leb_gt; lia);
    apply Nat.eqb_neq; lia.
Qed.

Lemma digit_char_cases (d : Z) :
  (0 <= d < 10)%Z ->
  isdigit (digit_char d) = true /\ digit_val (digit_char d) = d.
Proof.
  intros H.
  assert (Hd : (d = 0 \/ d = 1 \/ d = 2 \/ d = 3 \/ d = 4 \/ d = 5 \/ d = 6
                \/ d = 7 \/ d = 8 \/ d = 9)%Z) by lia.
  repeat (destruct Hd as [->|Hd]; [split; reflexivity|]).
  subst d. split; reflexivity.
Qed.

Lemma isdigit_digit_char (d : Z) :
  (0 <= d < 10)%Z -> isdigit (digit_char d) = true.
Proof. intros H. apply (digit_char_cases H). Qed.

Lemma digit_val_digit_char (d : Z) :
  (0 <= d < 10)%Z -> digit_val (digit_char d) = d.
Proof. intros H. apply (digit_char_cases H). Qed.

Lemma digit_val_range (c : ascii) :
  isdigit c = true -> (0 <= digit_val c < 10)%Z.
Proof.
  unfold isdigit, digit_val. intros H.
  apply andb_prop in H. destruct H as [H1 H2].
  apply Nat.leb_le in H1. apply Nat.leb_le in H2. lia.
Qed.

Lemma all_digits_no_space (s : str) : all_digits s -> no_space s.
Proof.
  unfold all_digits, no_space. intros H.
  eapply Forall_impl; [|exact H]. apply isdigit_not_space.
Qed.

Lemma digits_aux_app (fuel : nat) (n : Z) (acc : str) :
  digits_aux fuel n acc = digits_aux fuel n [] ++ acc.
Proof.
  revert n acc. induction fuel as [|fuel IH]; intros n acc; simpl.
  - reflexivity.
  - destruct (n <? 10)%Z; [reflexivity|].
    rewrite IH. rewrite (IH _ [_]). rewrite <- app_assoc. reflexivity.
Qed.

Lemma digits_aux_step (fuel : nat) (n : Z) :
  digits_aux (S fuel) n [] =
  if (n <? 10)%Z then [digit_char (n mod 10)]
  else digits_aux fuel (n / 10) [] ++ [digit_char (n mod 10)].
Proof.
  simpl. destruct (n <? 10)%Z; [reflexivity|]. apply digits_aux_app.
Qed.

Lemma digits_aux_all_digits (fuel : nat) (n : Z) :
  all_digits (digits_aux fuel n []).
Proof.
  revert n. induction fuel as [|fuel IH]; intros n.
  - constructor.
  - rewrite digits_aux_step.
    assert (Hd : isdigit (digit_char (n mod 10)) = true)
      by (apply isdigit_digit_char; apply Z.mod_pos_bound; lia).
    destruct (n <? 10)%Z.
    + constructor; [assumption|constructor].
    + apply Forall_app. split; [apply IH|].
      constructor; [assumption|constructor].
Qed.

Lemma digits_all_digits (n : Z) : all_digits (digits n).
Proof. apply digits_aux_all_digits. Qed.

Lemma digits_nonempty (n : Z) : digits n <> [].
Proof.
  unfold digits. rewrite digits_aux_step.
  destruct (n <? 10)%Z; [discriminate|].
  destruct (digits_aux _ _ _); discriminate.
Qed.

Lemma horner_snoc (s : str) (c : ascii) :
  horner (s ++ [c]) = (10 * horner s + digit_val c)%Z.
Proof. unfold horner. now rewrite fold_left_app. Qed.

Lemma horner_app (a b : str) :
  horner (a ++ b) = (horner a * 10 ^ Z.of_nat (length b) + horner b)%Z.
Proof.
  induction b as [|c b IH] using rev_ind.
  - rewrite app_nil_r. simpl. unfold horner at 3. simpl. lia.
  - rewrite app_assoc, !horner_snoc, IH, length_app. simpl length.
    replace (Z.of_nat (length b + 1)) with (Z.succ (Z.of_nat (length b)))
      by lia.
    rewrite Z.pow_succ_r by lia. lia.
Qed.

Lemma horner_bound (s : str) :
  all_digits s -> (0 <= horner s < 10 ^ Z.of_nat (length s))%Z.
Proof.
  induction s as [|c s IH] using rev_ind; intros H.
  - unfold horner. simpl. lia.
  - apply Forall_app in H. destruct H as [Hs Hc].
    inversion Hc as [|? ? Hd _]; subst.
    specialize (IH Hs). apply digit_val_range in Hd.
    rewrite horner_snoc, length_app. simpl length.
    replace (Z.of_nat (length s + 1)) with (Z.succ (Z.of_nat (length s)))
      by lia.
    rewrite Z.pow_succ_r by lia. lia.
Qed.

Lemma horner_digits_aux (fuel : nat) (n : Z) :
  (0 <= n < 10 ^ Z.of_nat fuel)%Z -> horner (digits_aux fuel n []) = n.
Proof.
  revert n. induction fuel as [|fuel IH]; intros n Hn.
  - simpl in Hn. unfold horner. simpl. lia.
  - rewrite digits_aux_step.
    assert (Hm : (0 <= n mod 10 < 10)%Z) by (apply Z.mod_pos_bound; lia).
    destruct (Z.ltb_spec n 10) as [Hlt|Hge].
    + unfold horner. simpl. rewrite digit_val_digit_char by assumption.
      rewrite Z.mod_small by lia. lia.
    + rewrite horner_snoc, digit_val_digit_char by assumption.
      rewrite IH.
      * pose proof (Z.div_mod n 10). lia.
      * replace (Z.of_nat (S fuel)) with (Z.succ (Z.of_nat fuel)) in Hn
          by lia.
        rewrite Z.pow_succ_r in Hn by lia.
        split; [apply Z.div_pos; lia|].
        apply Z.div_lt_upper_bound; lia.
Qed.

Lemma pow2_le_pow10 (k : Z) : (0 <= k -> 2 ^ k <= 10 ^ k)%Z.
Proof. intros H. apply Z.pow_le_mono_l. lia. Qed.

(** Reading the digits of a number gives the number back. *)
Lemma horner_digits (n : Z) : (0 <= n)%Z -> horner (digits n) = n.
Proof.
  intros Hn. unfold digits. apply horner_digits_aux.
  split; [assumption|].
  destruct (Z.eq_dec n 0) as [->|Hz]; [simpl; lia|].
  assert (Hpos : (0 < n)%Z) by lia.
  pose proof (Z.log2_spec n Hpos) as [_ Hlt].
  pose proof (Z.log2_nonneg n) as Hl.
  replace (Z.of_nat (S (Z.to_nat (Z.log2 n)))) with (Z.succ (Z.log2 n))
    by lia.
  pose proof (pow2_le_pow10 (k := Z.succ (Z.log2 n))). lia.
Qed.

(** A number with at most [w] digits is below [10^w]. *)
Lemma digits_width (n : Z) (w : nat) :
  (0 <= n)%Z -> length (digits n) <= w -> (n < 10 ^ Z.of_nat w)%Z.
Proof.
  intros Hn Hw.
  pose proof (horner_bound (digits_all_digits n)) as [_ Hb].
  rewrite horner_digits in Hb by assumption.
  eapply Z.lt_le_trans; [exact Hb|].
  apply Z.pow_le_mono_r; lia.
Qed.

(** ** Rounding *)

Section Rounding.

Open Scope Z_scope.

Lemma round_half_even_near (n d : Z) :
  0 < d -> - d <= 2 * (round_half_even n d * d - n) <= d.
Proof.
  intros Hd. unfold round_half_even.
  pose proof (Z.div_mod n d ltac:(lia)) as Hdm.
  pose proof (Z.mod_pos_bound n d Hd) as Hr.
  destruct (Z.ltb_spec (2 * (n mod d)) d);
    [|destruct (Z.ltb_spec d (2 * (n mod d)));
      [|destruct (Z.even (n / d))]]; nia.
Qed.

Lemma round_half_even_nonneg (n d : Z) :
  0 <= n -> 0 < d -> 0 <= round_half_even n d.
Proof.
  intros Hn Hd. unfold round_half_even.
  assert (0 <= n / d) by (apply Z.div_pos; lia).
  destruct (_ <? _); [|destruct (_ <? _); [|destruct (Z.even _)]]; lia.
Qed.

(** An integer strictly within one half of [n / d] is the rounded value. *)
Lemma round_half_even_unique (n d x : Z) :
  0 < d -> - d < 2 * (x * d - n) < d -> round_half_even n d = x.
Proof.
  intros Hd Hx. unfold round_half_even.
  pose proof (Z.div_mod n d ltac:(lia)) as Hdm.
  pose proof (Z.mod_pos_bound n d Hd) as Hr.
  set (q := n / d) in *. set (r := n mod d) in *.
  assert (Hq : x = q \/ x = q + 1) by nia.
  destruct (Z.ltb_spec (2 * r) d);
    [|destruct (Z.ltb_spec d (2 * r)); [|destruct (Z.even q)]];
    destruct Hq; subst x; nia.
Qed.

Lemma scale2_neg (n d e : Z) : e < 0 -> scale2 n d e = (n * 2 ^ (- e), d).
Proof.
  intros H. unfold scale2. destruct (Z.leb_spec 0 e); [lia|reflexivity].
Qed.

Lemma scale2_nonneg (n d e : Z) : 0 <= e -> scale2 n d e = (n, d * 2 ^ e).
Proof.
  intros H. unfold scale2. destruct (Z.leb_spec 0 e); [reflexivity|lia].
Qed.

Lemma scale2_sign (n d e : Z) :
  0 <= n -> 0 < d -> 0 <= fst (scale2 n d e) /\ 0 < snd (scale2 n d e).
Proof.
  intros Hn Hd. unfold scale2.
  destruct (Z.leb_spec 0 e); simpl.
  - split; [assumption|]. apply Z.mul_pos_pos; [assumption|].
    apply Z.pow_pos_nonneg; lia.
  - split; [|assumption]. apply Z.mul_nonneg_nonneg; [assumption|].
    apply Z.pow_nonneg; lia.
Qed.

(** The last place of the binary64 nearest to [r / k] is finer than
    [1 / k] when [r] is below [2^52]. *)
Lemma ulp_exponent_fine (r k : Z) :
  0 < r < 2 ^ 52 -> 0 < k < 2 ^ 1000 ->
  ulp_exponent r k < 0 /\ k < 2 ^ (- ulp_exponent r k).
Proof.
  intros Hr Hk. unfold ulp_exponent.
  assert (Hlr : 0 <= Z.log2 r < 52).
  { split; [apply Z.log2_nonneg|]. apply Z.log2_lt_pow2; lia. }
  assert (Hlk : 0 <= Z.log2 k < 1000).
  { split; [apply Z.log2_nonneg|]. apply Z.log2_lt_pow2; lia. }
  set (e0 := Z.log2 r - Z.log2 k - 53).
  destruct (scale2 r k e0) as [n' d'].
  set (e := Z.max (-1074) (if n' <? d' * 2 ^ 53 then e0 else e0 + 1)).
  assert (He : -1074 <= e <= - (Z.log2 k + 1)).
  { unfold e, e0. destruct (_ <? _); lia. }
  split; [lia|].
  pose proof (Z.log2_spec k ltac:(lia)) as [_ Hup].
  eapply Z.lt_le_trans; [exact Hup|].
  apply Z.pow_le_mono_r; lia.
Qed.

(** Writing the nearest binary64 of [r / 10^p] with [p] decimals gives
    [r / 10^p] back, digit for digit. *)
Lemma format_fixed_binary64_round (neg : bool) (r : Z) (p : nat) :
  0 <= r < 2 ^ 52 -> (p <= 300)%nat ->
  format_fixed p (binary64_round neg r (10 ^ Z.of_nat p)) =
  fixed_text neg r p.
Proof.
  intros Hr Hp. set (k := 10 ^ Z.of_nat p).
  assert (Hk : 0 < k < 2 ^ 1000).
  { unfold k. split; [apply Z.pow_pos_nonneg; lia|].
    apply Z.le_lt_trans with (10 ^ 300).
    - apply Z.pow_le_mono_r; lia.
    - reflexivity. }
  unfold binary64_round.
  destruct (Z.eqb_spec r 0) as [->|Hz].
  - reflexivity.
  - destruct (ulp_exponent_fine (r := r) (k := k)) as [He Hfine];
      [lia|lia|].
    set (e := ulp_exponent r k) in *.
    rewrite (scale2_neg _ _ He).
    set (m := round_half_even (r * 2 ^ (- e)) k).
    replace ((971 <? e) || ((e =? 971) && (m =? 2 ^ 53))) with false.
    2:{ symmetry. apply orb_false_intro.
        - apply Z.ltb_ge. lia.
        - apply andb_false_intro1. apply Z.eqb_neq. lia. }
    unfold format_fixed. fold k.
    rewrite scale2_nonneg by lia. f_equal.
    apply round_half_even_unique.
    + apply Z.mul_pos_pos; [lia|]. apply Z.pow_pos_nonneg; lia.
    + pose proof (round_half_even_near (r * 2 ^ (- e)) (d := k) ltac:(lia)).
      fold m in H. lia.
Qed.

End Rounding.

(** ** Reading a number written in fixed-point notation *)

Lemma strip_underscores_plain (s : str) (prev : option ascii) :
  Forall (fun c => c <> "_"%char) s ->
  prev <> Some "_"%char ->
  strip_underscores prev s = Some s.
Proof.
  intros Hs. revert prev.
  induction Hs as [|c s Hc Hs IH]; intros prev Hprev.
  - simpl. destruct prev as [p|]; [|reflexivity].
    destruct (Ascii.eqb_spec p "_"); [congruence|reflexivity].
  - simpl. destruct (Ascii.eqb_spec c "_") as [->|_]; [contradiction|].
    rewrite IH by congruence.
    destruct prev as [p|]; [|reflexivity].
    destruct (Ascii.eqb_spec p "_"); [congruence|reflexivity].
Qed.

Lemma span_digits_app (a rest : str) :
  all_digits a ->
  match rest with
  | [] => True
  | c :: _ => isdigit c = false
  end ->
  span_digits (a ++ rest) = (a, rest).
Proof.
  intros Ha Hrest. induction Ha as [|c a Hc Ha IH]; simpl.
  - destruct rest as [|c rest]; [reflexivity|]. simpl. now rewrite Hrest.
  - now rewrite Hc, IH.
Qed.

Lemma span_digits_all (a : str) : all_digits a -> span_digits a = (a, []).
Proof.
  intros Ha. rewrite <- (app_nil_r a) at 1. now apply span_digits_app.
Qed.

Lemma span_digits_spec (s : str) : all_digits (fst (span_digits s)).
Proof.
  induction s as [|c s IH]; simpl; [constructor|].
  destruct (isdigit c) eqn:Hc; [|constructor].
  destruct (span_digits s) as [ds r]. simpl in *. now constructor.
Qed.

Lemma zfill_all_digits (w : nat) (s : str) :
  all_digits s -> all_digits (zfill w s).
Proof.
  intros Hs. unfold zfill. apply Forall_app. split; [|assumption].
  apply Forall_forall. intros c Hc. apply repeat_spec in Hc. now subst c.
Qed.

Lemma horner_zfill (w : nat) (s : str) : horner (zfill w s) = horner s.
Proof.
  unfold zfill. induction (w - length s) as [|n IH]; [reflexivity|].
  simpl repeat. change ((digit_char 0 :: repeat (digit_char 0) n) ++ s)
    with ([digit_char 0] ++ (repeat (digit_char 0) n ++ s)).
  rewrite horner_app, IH. unfold horner at 1. simpl. lia.
Qed.

Lemma digits_aux_length (fuel : nat) (n : Z) (w : nat) :
  (n < 10 ^ Z.of_nat w)%Z -> 1 <= w ->
  length (digits_aux fuel n []) <= w.
Proof.
  revert n w. induction fuel as [|fuel IH]; intros n w Hn Hw.
  - simpl. lia.
  - rewrite digits_aux_step.
    destruct (Z.ltb_spec n 10) as [Hlt|Hge]; [simpl; lia|].
    rewrite length_app. simpl length.
    destruct w as [|[|w]]; [lia|simpl in Hn; lia|].
    assert (length (digits_aux fuel (n / 10) []) <= S w); [|lia].
    apply IH; [|lia].
    replace (Z.of_nat (S (S w))) with (Z.succ (Z.of_nat (S w))) in Hn by lia.
    rewrite Z.pow_succ_r in Hn by lia.
    apply Z.div_lt_upper_bound; lia.
Qed.

Lemma length_zfill_digits (n : Z) (w : nat) :
  (n < 10 ^ Z.of_nat w)%Z -> 1 <= w -> length (zfill w (digits n)) = w.
Proof.
  intros Hn Hw. unfold zfill. rewrite length_app, repeat_length.
  assert (length (digits n) <= w) by (now apply digits_aux_length).
  lia.
Qed.

Lemma isdigit_lower (c : ascii) : isdigit c = true -> lower c = c.
Proof.
  unfold isdigit, lower. intros H.
  apply andb_prop in H. destruct H as [H1 H2].
  apply Nat.leb_le in H1. apply Nat.leb_le in H2.
  destruct (Nat.leb_spec 65 (nat_of_ascii c)); [lia|reflexivity].
Qed.

(** A literal that starts with a digit names neither an infinity nor a
    nan, and carries no sign. *)
Lemma float_of_str_digit_first (neg : bool) (c : ascii) (s : str) :
  isdigit c = true ->
  Forall (fun a => a <> "_"%char) (sign_str neg ++ c :: s) ->
  float_of_str (sign_str neg ++ c :: s) =
  match parse_decimal (c :: s) with
  | Some (m, x) => Some (binary64_of_decimal neg m x)
  | None => None
  end.
Proof.
  intros Hc Hplain. unfold float_of_str.
  rewrite strip_underscores_plain by (assumption || discriminate).
  assert (Hs : take_sign (sign_str neg ++ c :: s) = (neg, c :: s)).
  { destruct neg; [reflexivity|]. simpl.
    destruct (Ascii.eqb_spec c "-") as [->|_]; [discriminate|].
    destruct (Ascii.eqb_spec c "+") as [->|_]; [discriminate|].
    reflexivity. }
  rewrite Hs. simpl map. rewrite (isdigit_lower _ Hc).
  repeat match goal with
         | |- context [list_eq_dec ascii_dec (c :: ?l) ?name] =>
             destruct (list_eq_dec ascii_dec (c :: l) name) as [E|_];
             [injection E as -> _; discriminate|]
         end.
  reflexivity.
Qed.

Lemma fixed_text_plain (neg : bool) (r : Z) (p : nat) :
  Forall (fun a => a <> "_"%char) (fixed_text neg r p).
Proof.
  assert (Hd : forall s, all_digits s -> Forall (fun a => a <> "_"%char) s).
  { intros s Hs. eapply Forall_impl; [|exact Hs].
    intros a Ha ->. discriminate. }
  unfold fixed_text. apply Forall_app. split.
  - destruct neg; repeat constructor; discriminate.
  - apply Forall_app. split; [apply Hd, digits_all_digits|].
    destruct p; [constructor|].
    constructor; [discriminate|].
    apply Hd, zfill_all_digits, digits_all_digits.
Qed.

(** [float] reads the fixed-point text of [r / 10^p] as the binary64
    nearest to that fraction. *)
Lemma float_of_fixed_text (neg : bool) (r : Z) (p : nat) :
  (0 <= r)%Z -> 1 <= p ->
  float_of_str (fixed_text neg r p) =
  Some (binary64_round neg r (10 ^ Z.of_nat p)).
Proof.
  intros Hr Hp.
  pose proof (fixed_text_plain neg r p) as Hplain.
  unfold fixed_text in *. destruct p as [|p']; [lia|].
  set (p := S p') in *. set (k := (10 ^ Z.of_nat p)%Z) in *.
  assert (Hk : (0 < k)%Z) by (apply Z.pow_pos_nonneg; lia).
  set (ip := digits (r / k)) in *.
  set (fp := zfill p (digits (r mod k))) in *.
  assert (Hip : all_digits ip) by apply digits_all_digits.
  assert (Hfp : all_digits fp) by apply zfill_all_digits, digits_all_digits.
  assert (Hlen : length fp = p).
  { apply length_zfill_digits; [|unfold p; lia].
    apply Z.mod_pos_bound. assumption. }
  destruct ip as [|c ip'] eqn:Eip; [now apply digits_nonempty in Eip|].
  assert (Hc : isdigit c = true) by (now inversion Hip).
  simpl app in *. rewrite (@float_of_str_digit_first neg c _ Hc Hplain).
  unfold parse_decimal. rewrite <- Eip in *.
  change (c :: ip' ++ "."%char :: fp) with ((c :: ip') ++ "."%char :: fp).
  rewrite <- Eip.
  rewrite span_digits_app by (assumption || reflexivity).
  simpl. rewrite span_digits_all by assumption.
  destruct (ip ++ fp) eqn:Eapp.
  { apply app_eq_nil in Eapp. destruct Eapp. congruence. }
  rewrite <- Eapp. simpl parse_exponent. cbv iota.
  rewrite horner_app, Hlen. fold k.
  unfold fp at 1. rewrite horner_zfill.
  unfold ip. rewrite !horner_digits.
  - unfold binary64_of_decimal.
    destruct (Z.leb_spec 0 (0 - Z.of_nat p)) as [H|_]; [lia|].
    replace (- (0 - Z.of_nat p))%Z with (Z.of_nat p) by lia. fold k.
    rewrite Z.mul_comm, <- Z.div_mod by lia. reflexivity.
  - apply Z.mod_pos_bound. assumption.
  - apply Z.div_pos; lia.
Qed.

(** ** Floats read and written *)

Lemma binary64_round_ok (neg : bool) (n d : Z) :
  (0 <= n)%Z -> (0 < d)%Z -> float_ok (binary64_round neg n d).
Proof.
  intros Hn Hd. unfold binary64_round.
  destruct (n =? 0)%Z; [simpl; lia|].
  pose proof (scale2_sign (ulp_exponent n d) Hn Hd) as [H1 H2].
  destruct (scale2 n d (ulp_exponent n d)) as [n' d']. simpl in *.
  destruct (_ || _); [exact I|].
  simpl. now apply round_half_even_nonneg.
Qed.

Lemma parse_decimal_nonneg (s : str) (m x : Z) :
  parse_decimal s = Some (m, x) -> (0 <= m)%Z.
Proof.
  unfold parse_decimal.
  pose proof (span_digits_spec s) as Hip.
  destruct (span_digits s) as [ip s1]. simpl in Hip.
  assert (Hfp : forall t, all_digits (fst (span_digits t)))
    by apply span_digits_spec.
  destruct (match s1 with
            | [] => ([], s1)
            | c :: s1' =>
                if Ascii.eqb c "." then span_digits s1' else ([], s1)
            end) as [fp s2] eqn:E.
  assert (Hfp' : all_digits fp).
  { destruct s1 as [|c s1']; [injection E as <- _; constructor|].
    destruct (Ascii.eqb c ".").
    - specialize (Hfp s1'). rewrite E in Hfp. exact Hfp.
    - injection E as <- _. constructor. }
  destruct (ip ++ fp) eqn:Eapp; [discriminate|]. rewrite <- Eapp.
  destruct (parse_exponent s2); [|discriminate].
  intros [= <- _]. apply horner_bound. apply Forall_app. now split.
Qed.

(** Whatever [float] returns has a significand that is not negative. *)
Lemma float_of_str_ok (tok : str) (x : float) :
  float_of_str tok = Some x -> float_ok x.
Proof.
  unfold float_of_str.
  destruct (strip_underscores None tok) as [s0|]; [|discriminate].
  destruct (take_sign s0) as [neg body].
  repeat (destruct (list_eq_dec _ _ _); [intros [= <-]; exact I|]).
  destruct (parse_decimal body) as [[m e]|] eqn:E; [|discriminate].
  intros [= <-]. apply parse_decimal_nonneg in E.
  unfold binary64_of_decimal. destruct (Z.leb_spec 0 e).
  - apply binary64_round_ok; [|lia].
    apply Z.mul_nonneg_nonneg; [assumption|]. apply Z.pow_nonneg. lia.
  - apply binary64_round_ok; [assumption|].
    apply Z.pow_pos_nonneg; lia.
Qed.

Lemma fixed_text_token (neg : bool) (r : Z) (p : nat) :
  is_token (fixed_text neg r p).
Proof.
  unfold fixed_text. split.
  - destruct neg; simpl; [discriminate|].
    pose proof (digits_nonempty (r / 10 ^ Z.of_nat p)).
    destruct (digits _); [contradiction|discriminate].
  - apply Forall_app. split; [destruct neg; repeat constructor|].
    apply Forall_app. split; [apply all_digits_no_space, digits_all_digits|].
    destruct p; [constructor|].
    constructor; [reflexivity|].
    apply all_digits_no_space, zfill_all_digits, digits_all_digits.
Qed.

(** The text of a number is one token. *)
Lemma format_fixed_token (p : nat) (x : float) : is_token (format_fixed p x).
Proof.
  destruct x as [|neg|neg m e]; simpl.
  - split; [discriminate|repeat constructor].
  - destruct neg; (split; [discriminate|repeat constructor]).
  - destruct (scale2 _ _ _). apply fixed_text_token.
Qed.

(** A finite number written with [p] decimals: a sign, digits, a point
    and exactly [p] digits. *)
Lemma format_fixed_decimals (p : nat) (neg : bool) (m e : Z) :
  1 <= p ->
  exists ip fp,
    format_fixed p (Finite neg m e) = sign_str neg ++ ip ++ "." ++ fp
    /\ ip <> [] /\ all_digits ip /\ all_digits fp /\ length fp = p.
Proof.
  intros Hp. simpl. destruct (scale2 _ _ _) as [n' d'].
  set (r := round_half_even n' d'). unfold fixed_text.
  destruct p as [|p']; [lia|]. set (p := S p') in *.
  exists (digits (r / 10 ^ Z.of_nat p)),
    (zfill p (digits (r mod 10 ^ Z.of_nat p))).
  split; [reflexivity|].
  split; [apply digits_nonempty|].
  split; [apply digits_all_digits|].
  split; [apply zfill_all_digits, digits_all_digits|].
  apply length_zfill_digits; [|lia].
  apply Z.mod_pos_bound. apply Z.pow_pos_nonneg; lia.
Qed.

Lemma fixed_text_width (neg : bool) (r : Z) (p w : nat) :
  (0 <= r)%Z -> length (fixed_text neg r p) <= w ->
  (r < 10 ^ Z.of_nat w * 10 ^ Z.of_nat p)%Z.
Proof.
  intros Hr Hw. unfold fixed_text in Hw. rewrite !length_app in Hw.
  set (k := (10 ^ Z.of_nat p)%Z) in *.
  assert (Hk : (0 < k)%Z) by (apply Z.pow_pos_nonneg; lia).
  assert (Hq : (r / k < 10 ^ Z.of_nat w)%Z).
  { apply digits_width; [apply Z.div_pos; lia|lia]. }
  pose proof (Z.div_mod r k ltac:(lia)).
  pose proof (Z.mod_pos_bound r k Hk). nia.
Qed.

(** Rendering is stable: the text of a number with one to three decimals,
    twelve characters at most, is read back by [float] as a number with
    the same text. *)
Lemma format_fixed_stable (p : nat) (x : float) :
  float_ok x -> 1 <= p <= 3 -> length (format_fixed p x) <= 12 ->
  exists x',
    float_of_str (format_fixed p x) = Some x'
    /\ format_fixed p x' = format_fixed p x.
Proof.
  intros Hok Hp Hw. destruct x as [|neg|neg m e].
  - exists NaN. split; reflexivity.
  - exists (Inf neg). destruct neg; split; reflexivity.
  - simpl in *.
    pose proof (@scale2_sign (m * 10 ^ Z.of_nat p) 1 (- e)) as Hs.
    destruct (scale2 (m * 10 ^ Z.of_nat p) 1 (- e)) as [n' d'].
    simpl in Hs. destruct Hs as [Hn' Hd'].
    { apply Z.mul_nonneg_nonneg; [assumption|]. apply Z.pow_nonneg. lia. }
    { lia. }
    set (r := round_half_even n' d') in *.
    assert (Hr : (0 <= r)%Z) by (now apply round_half_even_nonneg).
    pose proof (@fixed_text_width neg r p 12 Hr Hw) as Hb.
    assert (Hr52 : (r < 2 ^ 52)%Z).
    { eapply Z.lt_le_trans; [exact Hb|].
      apply Z.le_trans with (10 ^ 12 * 10 ^ 3)%Z; [|now vm_compute].
      apply Z.mul_le_mono_nonneg_l; [lia|].
      apply Z.pow_le_mono_r; lia. }
    exists (binary64_round neg r (10 ^ Z.of_nat p)). split.
    + apply float_of_fixed_text; lia.
    + apply format_fixed_binary64_round; lia.
Qed.

(** ** Classification of a line *)

Lemma startswith_spec (s prefix : str) :
  startswith s prefix = true <-> exists rest, s = prefix ++ rest.
Proof.
  revert s. induction prefix as [|p prefix IH]; intros s; simpl.
  - split; [intros _; now exists s|reflexivity].
  - destruct s as [|c s].
    + split; [discriminate|intros [rest H]; discriminate].
    + rewrite andb_true_iff, IH. split.
      * intros [Hc [rest ->]]. apply Ascii.eqb_eq in Hc. subst. now exists rest.
      * intros [rest [= -> ->]]. split; [apply Ascii.eqb_refl|now exists rest].
Qed.

(** The test of the program is a test on the first characters of the
    line. *)
Lemma has_prefix_spec (line : str) :
  has_prefix line = true <->
  exists rest, line = "ATOM" ++ rest \/ line = "HETATM" ++ rest.
Proof.
  unfold has_prefix. rewrite orb_true_iff, !startswith_spec.
  split.
  - intros [[rest H]|[rest H]]; exists rest; auto.
  - intros [rest [H|H]]; [left|right]; now exists rest.
Qed.

Lemma numeric_index_cases (P : nat -> Prop) :
  (forall i, numeric_index i -> P i) <-> P 6 /\ P 7 /\ P 8 /\ P 9 /\ P 10.
Proof.
  unfold numeric_index. split.
  - intros H. repeat split; apply H; lia.
  - intros (H6 & H7 & H8 & H9 & H10) i Hi.
    assert (Hc : i = 6 \/ i = 7 \/ i = 8 \/ i = 9 \/ i = 10) by lia.
    repeat (destruct Hc as [->|Hc]; [assumption|]). now subst.
Qed.

(** The formatting branch succeeds exactly when [float] accepts the five
    numeric tokens, and raises otherwise. *)
Lemma format_line_ok_iff (parts : list str) :
  (exists out, format_line parts = Ok out) <->
  (forall i, numeric_index i -> float_of_str (part parts i) <> None).
Proof.
  rewrite numeric_index_cases. split.
  - intros [out H].
    destruct (format_line_inv _ H)
      as (x & y & z & occ & b & Hx & Hy & Hz & Ho & Hb).
    repeat split; congruence.
  - intros (H6 & H7 & H8 & H9 & H10).
    destruct (float_of_str (part parts 6)) as [x|] eqn:Hx; [|congruence].
    destruct (float_of_str (part parts 7)) as [y|] eqn:Hy; [|congruence].
    destruct (float_of_str (part parts 8)) as [z|] eqn:Hz; [|congruence].
    destruct (float_of_str (part parts 9)) as [occ|] eqn:Ho; [|congruence].
    destruct (float_of_str (part parts 10)) as [b|] eqn:Hb; [|congruence].
    eexists. apply (format_line_ok _ Hx Hy Hz Ho Hb).
Qed.

Lemma format_line_raise_iff (parts : list str) :
  (exists e, format_line parts = Raise e) <->
  (exists i, numeric_index i /\ float_of_str (part parts i) = None).
Proof.
  split.
  - intros [e H].
    destruct (float_of_str (part parts 6)) eqn:H6;
      [|exists 6; split; [unfold numeric_index; lia|assumption]].
    destruct (float_of_str (part parts 7)) eqn:H7;
      [|exists 7; split; [unfold numeric_index; lia|assumption]].
    destruct (float_of_str (part parts 8)) eqn:H8;
      [|exists 8; split; [unfold numeric_index; lia|assumption]].
    destruct (float_of_str (part parts 9)) eqn:H9;
      [|exists 9; split; [unfold numeric_index; lia|assumption]].
    destruct (float_of_str (part parts 10)) eqn:H10;
      [|exists 10; split; [unfold numeric_index; lia|assumption]].
    rewrite (format_line_ok _ H6 H7 H8 H9 H10) in H. discriminate.
  - intros (i & Hi & Hnone).
    destruct (format_line parts) as [out|e] eqn:H; [|now exists e].
    assert (Hall : exists out, format_line parts = Ok out) by (now exists out).
    rewrite format_line_ok_iff in Hall. now apply Hall in Hnone.
Qed.

Lemma process_line_cases (line : str) :
  (has_prefix line = true /\ 11 <= length (split line)
   /\ process_line line =
      (formatted_line <- format_line (split line) ;;
       Ok (Reformat formatted_line)))
  \/ ((has_prefix line = false \/ length (split line) < 11)
      /\ process_line line = Ok (Copy line)).
Proof.
  destruct (has_prefix line) eqn:Hp.
  - destruct (Nat.le_gt_cases 11 (length (split line))) as [Hn|Hn].
    + left. repeat split; [assumption|]. now apply process_line_format.
    + right. split; [now right|]. apply process_line_copy. now right.
  - right. split; [now left|]. apply process_line_copy. now left.
Qed.

(** C1, as amended.  A line is rewritten exactly when it starts with the
    characters [ATOM] or [HETATM], splits into at least eleven tokens and
    [float] accepts its five numeric tokens; the run stops with an error
    exactly when it has the prefix and eleven tokens and [float] rejects
    a numeric token; it is copied unchanged exactly when it lacks the
    prefix or has fewer than eleven tokens.  The test is on the first
    characters of the line, not on its first token: a line that begins
    with [ATOMIC] qualifies. *)
Theorem reformat_iff_prefix (line : str) :
  let parts := split line in
  let qualifies :=
    (exists rest, line = "ATOM" ++ rest \/ line = "HETATM" ++ rest)
    /\ 11 <= length parts in
  ((exists out, process_line line = Ok (Reformat out)) <->
   qualifies
   /\ forall i, numeric_index i -> float_of_str (part parts i) <> None)
  /\ ((exists e, process_line line = Raise e) <->
      qualifies
      /\ exists i, numeric_index i /\ float_of_str (part parts i) = None)
  /\ (process_line line = Ok (Copy line) <-> ~ qualifies).
Proof.
  intros parts qualifies. unfold qualifies, parts.
  rewrite <- has_prefix_spec.
  rewrite <- format_line_ok_iff, <- format_line_raise_iff.
  destruct (process_line_cases line) as [(Hp & Hn & H)|[Hc H]]; rewrite H;
    [destruct (format_line (split line)) as [out|e]; simpl|];
    repeat split;
    intros;
    repeat match goal with
           | H : _ /\ _ |- _ => destruct H
           | H : exists _, _ |- _ => destruct H
           end;
    try discriminate; try assumption; try (eexists; reflexivity);
    try tauto;
    try (intros [Hp' Hn']).
  all: exfalso; destruct Hc as [Hc|Hc]; [congruence|lia].
Qed.

(** C1, as stated, fails in both directions.  The first token of
    [atomic_line] is [ATOMIC], neither [ATOM] nor [HETATM], and yet the
    line is rewritten, not copied.  The first token of [indented_line] is
    exactly [ATOM] and the line has twelve tokens, and yet it is copied,
    because it starts with a blank. *)
Lemma first_token_atomic_rewritten :
  (hd_error (split atomic_line) = Some "ATOMIC"
   /\ hd_error (split atomic_line) <> Some "ATOM"
   /\ hd_error (split atomic_line) <> Some "HETATM"
   /\ process_line atomic_line =
      Ok (Reformat
            ("ATOMIC    1 N    MET A   1      10.000  20.000  30.000  1.00 20.00           N"
             ++ [newline]))
   /\ process_line atomic_line <> Ok (Copy atomic_line))
  /\ (hd_error (split indented_line) = Some "ATOM"
      /\ length (split indented_line) = 12
      /\ process_line indented_line = Ok (Copy indented_line)).
Proof.
  repeat split; try reflexivity; vm_compute; discriminate.
Qed.

(** ** Numeric rendering *)

(** C7 (numeric rendering).  The token [1] is rendered [1.000] in a
    coordinate field and [1.00] in the occupancy and B-factor fields,
    right-justified in width 8 and width 6; the coordinate token
    [-12.3456] is rendered [-12.346], rounded to three decimals.  The
    last part shows these fields in the columns of a rewritten record. *)
Theorem numeric_rendering :
  option_map (format_fixed 3) (float_of_str "1") = Some "1.000"
  /\ option_map (format_fixed 2) (float_of_str "1") = Some "1.00"
  /\ option_map (format_fixed 3) (float_of_str "-12.3456") = Some "-12.346"
  /\ float_field 8 3 "1" = Ok "   1.000"
  /\ float_field 6 2 "1" = Ok "  1.00"
  /\ float_field 8 3 "-12.3456" = Ok " -12.346"
  /\ exists out,
       process_line rendering_line = Ok (Reformat out)
       /\ cols 31 38 out = "   1.000"
       /\ cols 39 46 out = "   1.000"
       /\ cols 47 54 out = " -12.346"
       /\ cols 55 60 out = "  1.00"
       /\ cols 61 66 out = "  1.00".
Proof.
  repeat (split; [reflexivity|]).
  eexists. split; [vm_compute; reflexivity|].
  repeat split.
Qed.

(** ** Tokens after the twelfth *)

Lemma part_firstn (n i : nat) (parts : list str) :
  i < n -> part (firstn n parts) i = part parts i.
Proof.
  intros Hi. unfold part. revert n i Hi.
  induction parts as [|t parts IH]; intros n i Hi.
  - rewrite firstn_nil. reflexivity.
  - destruct n as [|n]; [lia|]. destruct i as [|i]; simpl; [reflexivity|].
    apply IH. lia.
Qed.

Lemma element_of_firstn (parts : list str) :
  element_of (firstn 12 parts) = element_of parts.
Proof.
  unfold element_of. rewrite length_firstn, part_firstn by lia.
  destruct (Nat.ltb_spec 11 (length parts)) as [H|H].
  - replace (Nat.min 12 (length parts)) with 12 by lia. reflexivity.
  - destruct (Nat.ltb_spec 11 (Nat.min 12 (length parts))); [lia|reflexivity].
Qed.

(** The formatting branch looks at [parts[0]] to [parts[11]] only. *)
Lemma format_line_firstn (parts : list str) :
  format_line (firstn 12 parts) = format_line parts.
Proof.
  unfold format_line.
  rewrite element_of_firstn. rewrite !part_firstn by lia. reflexivity.
Qed.

(** C10 (tokens after the twelfth).  For a line with the prefix and more
    than twelve tokens, what the loop body does is determined by the
    first twelve tokens: it is the formatting of these twelve alone, and
    any other line with the prefix and the same first twelve tokens gets
    the same result, whatever follows them. *)
Theorem extra_tokens_discarded (line : str) :
  has_prefix line = true ->
  12 < length (split line) ->
  process_line line =
  (formatted_line <- format_line (firstn 12 (split line)) ;;
   Ok (Reformat formatted_line))
  /\ forall line',
       has_prefix line' = true ->
       firstn 12 (split line') = firstn 12 (split line) ->
       process_line line' = process_line line.
Proof.
  intros Hp Hn. split.
  - rewrite format_line_firstn. apply process_line_format; [assumption|lia].
  - intros line' Hp' Heq.
    assert (Hn' : 11 <= length (split line')).
    { assert (H : length (firstn 12 (split line')) = 12)
        by (rewrite Heq, length_firstn; lia).
      rewrite length_firstn in H. lia. }
    rewrite !process_line_format by (assumption || lia).
    rewrite <- (format_line_firstn (split line')), Heq, format_line_firstn.
    reflexivity.
Qed.

(** Two tokens after the twelfth change nothing. *)
Lemma extra_tokens_discarded_witness :
  process_line sample_line = process_line sample_line_14.
Proof.
  assert (Hp : has_prefix sample_line_14 = true) by reflexivity.
  assert (Hn : 12 < length (split sample_line_14)) by (vm_compute; lia).
  destruct (extra_tokens_discarded sample_line_14 Hp Hn) as [_ H].
  apply H; reflexivity.
Defined.

(** ** Padding never clips *)

Lemma occurs_in_refl (t : str) : occurs_in t t.
Proof. exists [], []. now rewrite app_nil_r. Qed.

Lemma occurs_in_app_l (t a b : str) : occurs_in t a -> occurs_in t (a ++ b).
Proof.
  intros (pre & post & ->). exists pre, (post ++ b).
  now rewrite <- !app_assoc.
Qed.

Lemma occurs_in_app_r (t a b : str) : occurs_in t b -> occurs_in t (a ++ b).
Proof.
  intros (pre & post & ->). exists (a ++ pre), post.
  now rewrite <- !app_assoc.
Qed.

Lemma occurs_in_cons (t : str) (c : ascii) (s : str) :
  occurs_in t s -> occurs_in t (c :: s).
Proof. apply (@occurs_in_app_r t [c] s). Qed.

Lemma occurs_in_ljust (w : nat) (t : str) : occurs_in t (ljust w t).
Proof. apply occurs_in_app_l, occurs_in_refl. Qed.

Lemma occurs_in_rjust (w : nat) (t : str) : occurs_in t (rjust w t).
Proof. apply occurs_in_app_r, occurs_in_refl. Qed.

Create HintDb occurs.
#[local] Hint Resolve occurs_in_ljust occurs_in_rjust : occurs.
#[local] Hint Resolve occurs_in_app_l occurs_in_app_r occurs_in_cons | 2
  : occurs.

Lemma occurs_inb_spec (t s : str) :
  occurs_inb t s = true <-> occurs_in t s.
Proof.
  induction s as [|c s IH]; simpl.
  - rewrite orb_false_r, startswith_spec. split.
    + intros [rest H]. symmetry in H. apply app_eq_nil in H.
      destruct H as [-> ->]. apply occurs_in_refl.
    + intros (pre & post & H). symmetry in H.
      apply app_eq_nil in H. destruct H as [_ H].
      apply app_eq_nil in H. destruct H as [-> ->]. now exists [].
  - rewrite orb_true_iff, IH, startswith_spec. split.
    + intros [[rest ->]|H].
      * exists [], rest. reflexivity.
      * now apply occurs_in_cons.
    + intros ([|c' pre] & post & H).
      * left. exists post. exact H.
      * right. injection H as _ ->. now exists pre, post.
Qed.

(** C8, as amended.  In a rewritten line each of the seven text tokens
    (record type, serial, atom name, residue name, chain id, residue
    number, element) occurs in full, whatever its length; each numeric
    token is written anew, with 3 decimals for x, y, z and 2 for occupancy
    and B-factor, and this rendering occurs in full.  A padded field is as
    long as the wider of the nominal width and the text, so padding widens
    and never clips. *)
Theorem fields_never_clipped (line out : str) :
  process_line line = Ok (Reformat out) ->
  let parts := split line in
  (forall i, i < 6 -> occurs_in (part parts i) out)
  /\ occurs_in (element_of parts) out
  /\ (exists x y z occ b,
        float_of_str (part parts 6) = Some x
        /\ float_of_str (part parts 7) = Some y
        /\ float_of_str (part parts 8) = Some z
        /\ float_of_str (part parts 9) = Some occ
        /\ float_of_str (part parts 10) = Some b
        /\ occurs_in (format_fixed 3 x) out
        /\ occurs_in (format_fixed 3 y) out
        /\ occurs_in (format_fixed 3 z) out
        /\ occurs_in (format_fixed 2 occ) out
        /\ occurs_in (format_fixed 2 b) out)
  /\ (forall w s,
        length (ljust w s) = Nat.max w (length s)
        /\ length (rjust w s) = Nat.max w (length s)
        /\ occurs_in s (ljust w s) /\ occurs_in s (rjust w s)).
Proof.
  intros H parts.
  destruct (process_line_reformat_inv _ H) as (_ & _ & Hf).
  destruct (format_line_inv _ Hf)
    as (x & y & z & occ & b & Hx & Hy & Hz & Ho & Hb).
  rewrite (format_line_ok _ Hx Hy Hz Ho Hb) in Hf. injection Hf as <-.
  fold parts. split; [|split; [|split]].
  - intros i Hi.
    assert (Hc : i = 0 \/ i = 1 \/ i = 2 \/ i = 3 \/ i = 4 \/ i = 5) by lia.
    repeat (destruct Hc as [->|Hc]; [auto 20 with occurs|]).
    subst i. auto 20 with occurs.
  - auto 30 with occurs.
  - exists x, y, z, occ, b.
    repeat (split; [assumption|]).
    repeat split; auto 30 with occurs.
  - intros w s.
    auto using length_ljust, length_rjust, occurs_in_ljust, occurs_in_rjust.
Qed.

(** An atom name of six characters is written in full. *)
Lemma fields_never_clipped_witness :
  occurs_in "CALPHA" long_name_formatted.
Proof.
  assert (H : process_line long_name_line = Ok (Reformat long_name_formatted))
    by (vm_compute; reflexivity).
  destruct (@fields_never_clipped long_name_line long_name_formatted H)
    as (Htext & _).
  apply (Htext 2). lia.
Defined.

(** C8, as stated, fails for a numeric token: the x token of
    [long_number_line] has twelve characters, more than the eight of its
    field, and it does not occur in the rewritten line, which shows the
    number with three decimals. *)
Lemma long_numeric_token_not_emitted :
  part (split long_number_line) 6 = "0.1234567890"
  /\ 8 < length (part (split long_number_line) 6)
  /\ exists out,
       process_line long_number_line = Ok (Reformat out)
       /\ cols 31 38 out = "   0.123"
       /\ ~ occurs_in (part (split long_number_line) 6) out.
Proof.
  split; [reflexivity|]. split; [vm_compute; lia|].
  eexists. split; [vm_compute; reflexivity|].
  split; [reflexivity|].
  rewrite <- occurs_inb_spec. vm_compute. discriminate.
Qed.

(** ** The loop *)

Lemma write_lines_ok (lines : list str) (acts : list action) (out : str) :
  processed lines acts ->
  write_lines lines out = (out ++ concat (map written acts), None).
Proof.
  intros H. revert out.
  induction H as [|line a lines acts Ha _ IH]; intros out; simpl.
  - now rewrite app_nil_r.
  - rewrite Ha, IH, <- app_assoc. reflexivity.
Qed.

Lemma write_lines_raise (before after : list str) (bad : str)
    (acts : list action) (e : exn) (out : str) :
  processed before acts ->
  process_line bad = Raise e ->
  write_lines (before ++ bad :: after) out =
  (out ++ concat (map written acts), Some e).
Proof.
  intros H Hbad. revert out.
  induction H as [|line a lines acts Ha _ IH]; intros out; simpl.
  - now rewrite Hbad, app_nil_r.
  - rewrite Ha, IH, <- app_assoc. reflexivity.
Qed.

(** The loop either handles every line, or stops at the first line on
    which the body raises; what it has written is what the lines before
    gave. *)
Lemma write_lines_cases (lines : list str) (out : str) :
  (exists acts,
     processed lines acts
     /\ write_lines lines out = (out ++ concat (map written acts), None))
  \/ (exists before bad after acts e,
        lines = before ++ bad :: after
        /\ processed before acts
        /\ process_line bad = Raise e
        /\ write_lines lines out = (out ++ concat (map written acts), Some e)).
Proof.
  induction lines as [|line lines IH].
  - left. exists []. split; [constructor|]. simpl. now rewrite app_nil_r.
  - destruct (process_line line) as [a|e] eqn:Ha.
    + destruct IH as [(acts & Hacts & _)
                     |(before & bad & after & acts & e & -> & Hacts & Hbad & _)].
      * left. exists (a :: acts).
        assert (Hp : processed (line :: lines) (a :: acts))
          by (now constructor).
        split; [exact Hp|]. now apply write_lines_ok.
      * right. exists (line :: before), bad, after, (a :: acts), e.
        assert (Hp : processed (line :: before) (a :: acts))
          by (now constructor).
        repeat split; try assumption.
        now apply (write_lines_raise (before := line :: before)).
    + right. exists [], line, lines, [], e.
      repeat split; try assumption; [constructor|].
      now apply (write_lines_raise (before := [])); [constructor|].
Qed.

Lemma processed_length (lines : list str) (acts : list action) :
  processed lines acts -> length acts = length lines.
Proof. intros H. symmetry. apply (Forall2_length H). Qed.

Lemma processed_nth (lines : list str) (acts : list action) (i : nat)
    (line : str) :
  processed lines acts -> nth_error lines i = Some line ->
  exists a, nth_error acts i = Some a /\ process_line line = Ok a.
Proof.
  intros H. revert i.
  induction H as [|l a lines acts Ha _ IH]; intros i Hi.
  - destruct i; discriminate.
  - destruct i as [|i]; simpl in *.
    + injection Hi as <-. now exists a.
    + now apply IH.
Qed.

Lemma processed_in (lines : list str) (acts : list action) (line : str) :
  processed lines acts -> In line lines -> exists a, process_line line = Ok a.
Proof.
  intros H Hin. apply In_nth_error in Hin. destruct Hin as [i Hi].
  destruct (processed_nth _ H Hi) as (a & _ & Ha). now exists a.
Qed.

Lemma process_line_raise_iff (line : str) :
  (exists e, process_line line = Raise e) <-> offending line.
Proof.
  unfold offending. rewrite <- format_line_raise_iff.
  destruct (process_line_cases line) as [(Hp & Hn & H)|[Hc H]]; rewrite H.
  - destruct (format_line (split line)) as [out|e]; simpl; split.
    + intros [e He]. discriminate.
    + intros (_ & _ & e & He). discriminate.
    + intros _. repeat split; try assumption. now exists e.
    + intros _. now exists e.
  - split.
    + intros [e He]. discriminate.
    + intros (Hp & Hn & _). destruct Hc as [Hc|Hc]; [congruence|lia].
Qed.

(** C3 (fatal format error).  The run ends with an error exactly when
    some line of the input has the prefix, at least eleven tokens, and a
    token among the 7th to the 11th that [float] rejects.  The error is
    fatal: the loop stops at the first such line, none of the lines after
    it is handled, and the output holds only what the lines before it
    gave.  A line with fewer than eleven tokens raises no error. *)
Theorem run_fails_iff (input : str) :
  ((exists e, snd (fix_pdb_alignment input) = Some e) <->
   (exists line, In line (readlines input) /\ offending line))
  /\ (forall e,
        snd (fix_pdb_alignment input) = Some e ->
        exists before bad after acts,
          readlines input = before ++ bad :: after
          /\ processed before acts
          /\ offending bad
          /\ process_line bad = Raise e
          /\ fst (fix_pdb_alignment input) = concat (map written acts))
  /\ (forall line,
        length (split line) < 11 -> process_line line = Ok (Copy line)).
Proof.
  unfold fix_pdb_alignment.
  destruct (write_lines_cases (readlines input) [])
    as [(acts & Hacts & Hrun)
       |(before & bad & after & acts & e & Hsplit & Hacts & Hbad & Hrun)];
    rewrite Hrun; simpl.
  - split; [split|split].
    + intros [e He]. discriminate.
    + intros (line & Hin & Hoff). apply process_line_raise_iff in Hoff.
      destruct Hoff as [e He].
      destruct (@processed_in _ _ _ Hacts Hin) as [a Ha]. congruence.
    + intros e He. discriminate.
    + intros line Hn. apply process_line_copy. now right.
  - assert (Hoff : offending bad)
      by (apply process_line_raise_iff; now exists e).
    split; [split|split].
    + intros _. exists bad. split; [|assumption].
      rewrite Hsplit. apply in_elt.
    + intros _. now exists e.
    + intros e' [= <-]. exists before, bad, after, acts. auto.
    + intros line Hn. apply process_line_copy. now right.
Qed.

Example run_fails_example :
  fix_pdb_alignment broken_input =
  ("HEADER test" ++ [newline], Some (ValueError "abc")).
Proof. reflexivity. Qed.

(** ** Lines written *)

Lemma no_space_no_newline (t : str) : no_space t -> no_newline t.
Proof.
  unfold no_space, no_newline. intros H.
  eapply Forall_impl; [|exact H].
  intros c Hc ->. discriminate.
Qed.

Lemma no_newline_blank (n : nat) : no_newline (repeat space n).
Proof.
  apply Forall_forall. intros c Hc. apply repeat_spec in Hc. subst c.
  discriminate.
Qed.

Lemma no_newline_app (a b : str) :
  no_newline a -> no_newline b -> no_newline (a ++ b).
Proof. intros Ha Hb. apply Forall_app. now split. Qed.

Lemma no_newline_cons_space (s : str) :
  no_newline s -> no_newline (" "%char :: s).
Proof. intros H. constructor; [discriminate|assumption]. Qed.

Lemma no_newline_ljust (w : nat) (t : str) :
  no_newline t -> no_newline (ljust w t).
Proof. intros H. apply no_newline_app; [assumption|apply no_newline_blank]. Qed.

Lemma no_newline_rjust (w : nat) (t : str) :
  no_newline t -> no_newline (rjust w t).
Proof. intros H. apply no_newline_app; [apply no_newline_blank|assumption]. Qed.

Lemma part_no_space (s : str) (i : nat) : no_space (part (split s) i).
Proof.
  destruct (Nat.lt_ge_cases i (length (split s))) as [Hi|Hi].
  - apply (part_token _ Hi).
  - unfold part. rewrite nth_overflow by assumption. constructor.
Qed.

Lemma element_of_no_space (s : str) : no_space (element_of (split s)).
Proof.
  unfold element_of. destruct (11 <? _); [apply part_no_space|constructor].
Qed.

(** The line of the formatting branch is one line: its only newline is
    its last character. *)
Lemma format_line_one_line (s out : str) :
  format_line (split s) = Ok out ->
  exists body, out = body ++ [newline] /\ no_newline body.
Proof.
  intros H.
  destruct (format_line_inv _ H)
    as (x & y & z & occ & b & Hx & Hy & Hz & Ho & Hb).
  rewrite (format_line_ok _ Hx Hy Hz Ho Hb) in H. injection H as <-.
  exists (ljust 6 (part (split s) 0) ++ rjust 5 (part (split s) 1) ++ " "
          ++ ljust 4 (part (split s) 2) ++ " "
          ++ rjust 3 (part (split s) 3) ++ " "
          ++ rjust 1 (part (split s) 4) ++ rjust 4 (part (split s) 5)
          ++ "    "
          ++ rjust 8 (format_fixed 3 x) ++ rjust 8 (format_fixed 3 y)
          ++ rjust 8 (format_fixed 3 z)
          ++ rjust 6 (format_fixed 2 occ) ++ rjust 6 (format_fixed 2 b)
          ++ "          " ++ rjust 2 (element_of (split s))).
  split.
  - repeat (rewrite <- app_assoc; simpl app). reflexivity.
  - pose proof (fun i => no_space_no_newline (part_no_space s i)) as Hpart.
    pose proof (no_space_no_newline (element_of_no_space s)) as Hel.
    pose proof (fun p v =>
                  no_space_no_newline (proj2 (format_fixed_token p v)))
      as Hnum.
    simpl app.
    repeat first
      [ apply Hpart | apply Hel | apply Hnum
      | apply no_newline_blank
      | apply no_newline_ljust
      | apply no_newline_rjust
      | apply no_newline_cons_space
      | apply no_newline_app ].
Qed.

(** What the loop body writes for a line: the line itself, or a line
    that ends with a newline. *)
Lemma written_shape (line : str) (a : action) :
  process_line line = Ok a ->
  written a = line
  \/ exists body, written a = body ++ [newline] /\ no_newline body.
Proof.
  intros H.
  destruct (process_line_cases line) as [(_ & _ & Hf)|[_ Hc]].
  - right. rewrite Hf in H.
    destruct (format_line (split line)) as [out|e] eqn:E; [|discriminate].
    injection H as <-. apply (format_line_one_line _ E).
  - left. rewrite Hc in H. now injection H as <-.
Qed.

(** The lines written are the lines of the output. *)
Lemma processed_lines_ok (lines : list str) (acts : list action) :
  lines_ok lines -> processed lines acts -> lines_ok (map written acts).
Proof.
  intros Hl. revert acts.
  induction Hl as [|body Hne Hb|body ls Hb Hls IH]; intros acts Hp.
  - inversion Hp; subst. constructor.
  - inversion Hp as [|? a ? acts' Ha Hrest]; subst.
    inversion Hrest; subst. simpl.
    destruct (written_shape _ Ha) as [->|(b' & -> & Hb')].
    + now apply lines_last.
    + apply lines_cons; [assumption|constructor].
  - inversion Hp as [|? a ? acts' Ha Hrest]; subst. simpl.
    destruct (written_shape _ Ha) as [->|(b' & -> & Hb')].
    + apply lines_cons; [assumption|now apply IH].
    + apply lines_cons; [assumption|now apply IH].
Qed.

Lemma run_ok_lines (input out : str) :
  fix_pdb_alignment input = (out, None) ->
  exists acts,
    processed (readlines input) acts /\ readlines out = map written acts.
Proof.
  unfold fix_pdb_alignment. intros H.
  destruct (write_lines_cases (readlines input) [])
    as [(acts & Hacts & Hrun)
       |(before & bad & after & acts & e & _ & _ & _ & Hrun)];
    rewrite Hrun in H; [|discriminate].
  injection H as <-. exists acts. split; [assumption|].
  apply readlines_of_lines.
  apply (processed_lines_ok (readlines_ok input) Hacts).
Qed.

(** C6 (line count and order).  When the run succeeds, the output has as
    many lines as the input, and its i-th line is what the loop body wrote
    for the i-th line of the input, rewritten or copied. *)
Theorem line_count_preserved (input out : str) :
  fix_pdb_alignment input = (out, None) ->
  length (readlines out) = length (readlines input)
  /\ forall i line,
       nth_error (readlines input) i = Some line ->
       exists a,
         process_line line = Ok a
         /\ nth_error (readlines out) i = Some (written a).
Proof.
  intros H. destruct (run_ok_lines _ H) as (acts & Hacts & ->).
  split.
  - rewrite length_map. now apply processed_length.
  - intros i line Hi.
    destruct (processed_nth _ Hacts Hi) as (a & Hnth & Ha).
    exists a. split; [assumption|].
    now rewrite nth_error_map, Hnth.
Qed.

(** Four lines in, four lines out, the last one still without newline. *)
Lemma line_count_preserved_witness :
  length (readlines mixed_output) = 4
  /\ exists a,
       process_line "END" = Ok a
       /\ nth_error (readlines mixed_output) 3 = Some (written a).
Proof.
  assert (H : fix_pdb_alignment mixed_input = (mixed_output, None))
    by (vm_compute; reflexivity).
  destruct (@line_count_preserved mixed_input mixed_output H) as [Hlen Hnth].
  split.
  - rewrite Hlen. reflexivity.
  - apply Hnth. reflexivity.
Defined.

(** ** Splitting a formatted line *)

Lemma split_token_app (t s : str) :
  is_token t -> blank_led s -> split (t ++ s) = t :: split s.
Proof.
  intros Ht Hs. destruct s as [|c s].
  - rewrite app_nil_r. now apply split_token_end.
  - simpl in Hs. rewrite split_token_next, split_skip by assumption.
    reflexivity.
Qed.

Lemma blank_led_blank (n : nat) (s : str) :
  0 < n \/ blank_led s -> blank_led (repeat space n ++ s).
Proof.
  intros H. destruct n as [|n]; simpl; [|reflexivity].
  destruct H as [H|H]; [lia|assumption].
Qed.

Lemma blank_led_rjust (w : nat) (t s : str) :
  length t < w -> blank_led (rjust w t ++ s).
Proof.
  intros H. unfold rjust. rewrite <- app_assoc.
  apply blank_led_blank. left. lia.
Qed.

Lemma split_ljust (w : nat) (t s : str) :
  is_token t -> length t < w \/ blank_led s ->
  split (ljust w t ++ s) = t :: split s.
Proof.
  intros Ht H. unfold ljust. rewrite <- app_assoc.
  rewrite split_token_app, split_skip_blank; [reflexivity|assumption|].
  apply blank_led_blank. destruct H; [left; lia|now right].
Qed.

Lemma split_rjust (w : nat) (t s : str) :
  is_token t -> blank_led s -> split (rjust w t ++ s) = t :: split s.
Proof.
  intros Ht H. unfold rjust. rewrite <- app_assoc, split_skip_blank.
  now apply split_token_app.
Qed.

Lemma split_space (s : str) : split (" "%char :: s) = split s.
Proof. now apply split_skip. Qed.

Section FormattedTokens.

Variables t0 t1 t2 t3 t4 t5 t6 t7 t8 t9 t10 el : str.
Hypothesis T0 : is_token t0.
Hypothesis T1 : is_token t1.
Hypothesis T2 : is_token t2.
Hypothesis T3 : is_token t3.
Hypothesis T4 : is_token t4.
Hypothesis T5 : is_token t5.
Hypothesis T6 : is_token t6.
Hypothesis T7 : is_token t7.
Hypothesis T8 : is_token t8.
Hypothesis T9 : is_token t9.
Hypothesis T10 : is_token t10.
Hypothesis Tel : no_space el.
Hypothesis S01 : length t0 < 6 \/ length t1 < 5.
Hypothesis S5 : length t5 < 4.
Hypothesis S7 : length t7 < 8.
Hypothesis S8 : length t8 < 8.
Hypothesis S9 : length t9 < 6.
Hypothesis S10 : length t10 < 6.

(** The tokens of a formatted line whose fields stay apart are the values
    of its fields. *)
Lemma split_formatted :
  split (ljust 6 t0 ++ rjust 5 t1 ++ " " ++ ljust 4 t2 ++ " "
         ++ rjust 3 t3 ++ " " ++ rjust 1 t4 ++ rjust 4 t5 ++ "    "
         ++ rjust 8 t6 ++ rjust 8 t7 ++ rjust 8 t8
         ++ rjust 6 t9 ++ rjust 6 t10
         ++ "          " ++ rjust 2 el ++ [newline]) =
  [t0; t1; t2; t3; t4; t5; t6; t7; t8; t9; t10] ++ push el [].
Proof.
  simpl app.
  rewrite split_ljust;
    [|assumption|destruct S01; [now left|right; now apply blank_led_rjust]].
  rewrite split_rjust, split_space by (assumption || reflexivity).
  rewrite split_ljust, split_space by (assumption || (right; reflexivity)).
  rewrite split_rjust, split_space by (assumption || reflexivity).
  rewrite split_rjust by (assumption || now apply blank_led_rjust).
  rewrite split_rjust by (assumption || reflexivity).
  rewrite !split_space.
  rewrite split_rjust by (assumption || now apply blank_led_rjust).
  rewrite split_rjust by (assumption || now apply blank_led_rjust).
  rewrite split_rjust by (assumption || now apply blank_led_rjust).
  rewrite split_rjust by (assumption || now apply blank_led_rjust).
  rewrite split_rjust by (assumption || reflexivity).
  rewrite !split_space.
  do 11 f_equal.
  destruct el as [|c el'] eqn:E.
  - reflexivity.
  - rewrite <- E in *. rewrite split_rjust; [|split; congruence|reflexivity].
    rewrite E. reflexivity.
Qed.

End FormattedTokens.

(** ** The second run *)

Lemma first_token_startswith (line prefix : str) :
  is_token prefix -> startswith line prefix = true ->
  exists rest, part (split line) 0 = prefix ++ rest.
Proof.
  intros [Hne Hp] H. apply startswith_spec in H. destruct H as [rest ->].
  unfold split. rewrite (tokens_app _ Hp).
  destruct (tokens rest) as [t ts]. simpl fst. simpl snd.
  exists t. destruct prefix; [contradiction|reflexivity].
Qed.

(** A line that starts with the first token of a line with the prefix
    has the prefix too. *)
Lemma has_prefix_first_token (line s : str) :
  has_prefix line = true -> has_prefix (part (split line) 0 ++ s) = true.
Proof.
  unfold has_prefix. intros H. apply orb_true_iff in H.
  apply orb_true_iff.
  destruct H as [H|H]; [left|right];
    apply first_token_startswith in H;
    try (split; [discriminate|repeat constructor]);
    destruct H as [rest ->]; apply startswith_spec;
    exists (rest ++ s); now rewrite <- app_assoc.
Qed.

Lemma separated_inv (parts : list str) :
  separated parts = true ->
  (length (part parts 0) < 6 \/ length (part parts 1) < 5)
  /\ length (part parts 5) < 4
  /\ number_fits 7 3 (part parts 7) = true
  /\ number_fits 7 3 (part parts 8) = true
  /\ number_fits 5 2 (part parts 9) = true
  /\ number_fits 5 2 (part parts 10) = true.
Proof.
  unfold separated. intros H.
  repeat (apply andb_prop in H; destruct H as [H ?]).
  apply orb_true_iff in H. rewrite !Nat.ltb_lt in H.
  match goal with
  | H5 : (length (part parts 5) <? 4) = true |- _ => apply Nat.ltb_lt in H5
  end.
  repeat split; assumption.
Qed.

Lemma element_of_push (ts : list str) (el : str) :
  length ts = 11 -> element_of (ts ++ push el []) = el.
Proof.
  intros H. unfold element_of, part. rewrite length_app, H.
  destruct el as [|c el]; simpl push; simpl length.
  - reflexivity.
  - simpl Nat.ltb. rewrite app_nth2 by lia. rewrite H. reflexivity.
Qed.

(** A rewritten line whose values fit and stay apart is rewritten to
    itself. *)
Lemma reformat_stable (line out : str) :
  process_line line = Ok (Reformat out) ->
  fits_nominal (split line) = true ->
  separated (split line) = true ->
  process_line out = Ok (Reformat out).
Proof.
  intros H Hfit Hsep.
  destruct (process_line_reformat_inv _ H) as (Hp & Hn & Hf).
  apply fits_nominal_inv in Hfit.
  destruct Hfit as [_ [(N6 & N7 & N8 & N9 & N10) _]].
  apply number_fits_inv in N6, N7, N8, N9, N10.
  destruct N6 as (x & Hx & Wx), N7 as (y & Hy & _), N8 as (z & Hz & _),
    N9 as (occ & Ho & _), N10 as (b & Hb & _).
  apply separated_inv in Hsep.
  destruct Hsep as (S01 & S5 & M7 & M8 & M9 & M10).
  apply number_fits_inv in M7, M8, M9, M10.
  destruct M7 as (y' & Hy' & Wy), M8 as (z' & Hz' & Wz),
    M9 as (occ' & Ho' & Wo), M10 as (b' & Hb' & Wb).
  assert (y' = y) as -> by congruence.
  assert (z' = z) as -> by congruence.
  assert (occ' = occ) as -> by congruence.
  assert (b' = b) as -> by congruence.
  rewrite (format_line_ok _ Hx Hy Hz Ho Hb) in Hf. injection Hf as Hout.
  set (parts := split line) in *.
  assert (Htok : forall i, i < 11 -> is_token (part parts i))
    by (intros i Hi; apply part_token; fold parts; lia).
  pose proof (element_of_no_space line) as Hel. fold parts in Hel.
  assert (Hsplit :
    split out =
    [part parts 0; part parts 1; part parts 2; part parts 3; part parts 4;
     part parts 5; format_fixed 3 x; format_fixed 3 y; format_fixed 3 z;
     format_fixed 2 occ; format_fixed 2 b] ++ push (element_of parts) []).
  { rewrite <- Hout.
    apply split_formatted;
      try (apply Htok; lia); try apply format_fixed_token;
      try assumption; lia. }
  destruct (@format_fixed_stable 3 x (float_of_str_ok _ Hx))
    as (x1 & Hx1 & Ex); [lia|lia|].
  destruct (@format_fixed_stable 3 y (float_of_str_ok _ Hy))
    as (y1 & Hy1 & Ey); [lia|lia|].
  destruct (@format_fixed_stable 3 z (float_of_str_ok _ Hz))
    as (z1 & Hz1 & Ez); [lia|lia|].
  destruct (@format_fixed_stable 2 occ (float_of_str_ok _ Ho))
    as (occ1 & Ho1 & Eo); [lia|lia|].
  destruct (@format_fixed_stable 2 b (float_of_str_ok _ Hb))
    as (b1 & Hb1 & Eb); [lia|lia|].
  assert (Hp' : has_prefix out = true).
  { rewrite <- Hout. unfold ljust at 1. rewrite <- app_assoc.
    now apply has_prefix_first_token. }
  assert (Hn' : 11 <= length (split out))
    by (rewrite Hsplit, length_app; simpl; lia).
  rewrite (process_line_format _ Hp' Hn').
  assert (Hf' : format_line (split out) = Ok out).
  { rewrite Hsplit.
    rewrite (@format_line_ok _ x1 y1 z1 occ1 b1) by assumption.
    rewrite element_of_push by reflexivity.
    unfold part at 1 2 3 4 5 6. simpl nth.
    rewrite Ex, Ey, Ez, Eo, Eb. f_equal. exact Hout. }
  now rewrite Hf'.
Qed.

Lemma process_line_written (line : str) (a : action) :
  process_line line = Ok a -> well_spaced line ->
  process_line (written a) = Ok a.
Proof.
  intros H Hw. destruct a as [out|l]; simpl.
  - destruct (process_line_reformat_inv _ H) as (Hp & Hn & _).
    destruct (Hw Hp Hn) as [Hfit Hsep].
    exact (@reformat_stable line out H Hfit Hsep).
  - destruct (process_line_cases line) as [(_ & _ & Hf)|[_ Hc]].
    + rewrite Hf in H. destruct (format_line (split line)); discriminate.
    + rewrite Hc in H. injection H as <-. exact Hc.
Qed.

Lemma processed_again (lines : list str) (acts : list action) :
  processed lines acts ->
  (forall line, In line lines -> well_spaced line) ->
  processed (map written acts) acts.
Proof.
  induction 1 as [|line a lines acts Ha _ IH]; intros Hw; simpl.
  - constructor.
  - constructor.
    + apply (@process_line_written line a Ha). apply Hw. now left.
    + apply IH. intros l Hl. apply Hw. now right.
Qed.

(** C5, as amended.  When the run succeeds on an input in which every
    line that is rewritten holds values that fit their fields and stay
    apart (the record type or the serial narrower than its field; the
    residue number, y, z, occupancy and B-factor narrower than theirs), a
    second run on the output succeeds and writes the same text again. *)
Theorem second_run_identical (input out : str) :
  fix_pdb_alignment input = (out, None) ->
  (forall line, In line (readlines input) -> well_spaced line) ->
  fix_pdb_alignment out = (out, None).
Proof.
  intros Hrun Hw.
  destruct (run_ok_lines _ Hrun) as (acts & Hacts & Hlines).
  unfold fix_pdb_alignment in *.
  rewrite (@write_lines_ok _ acts [] Hacts) in Hrun. injection Hrun as Hout.
  rewrite Hlines.
  rewrite (@write_lines_ok _ acts [] (@processed_again _ acts Hacts Hw)).
  now rewrite Hout.
Qed.

(** The output of the run on [mixed_input] is a fixed point. *)
Lemma second_run_identical_witness :
  fix_pdb_alignment mixed_output = (mixed_output, None).
Proof.
  assert (H : fix_pdb_alignment mixed_input = (mixed_output, None))
    by (vm_compute; reflexivity).
  apply (@second_run_identical mixed_input mixed_output H).
  intros line Hin. vm_compute in Hin.
  repeat (destruct Hin as [<-|Hin]); try contradiction;
    intros Hp Hn;
    first [ discriminate Hp
          | split; reflexivity
          | vm_compute in Hn; lia ].
Defined.

(** C5, as stated, fails: the values of [crowded_line] all fit their
    fields and its numbers are accepted, but the residue number fills
    its four columns and is written against the chain id; the second run
    reads [A1000] as one token, takes the element symbol for the B-factor
    and stops with an error. *)
Lemma second_run_fails_on_crowded_line :
  has_prefix crowded_line = true
  /\ length (split crowded_line) = 12
  /\ fits_nominal (split crowded_line) = true
  /\ exists out,
       fix_pdb_alignment crowded_line = (out, None)
       /\ out =
          "ATOM      1 N    MET A1000      10.000  20.000  30.000  1.00 20.00           N"
          ++ [newline]
       /\ fix_pdb_alignment out = ([], Some (ValueError "N"))
       /\ fix_pdb_alignment out <> (out, None).
Proof.
  repeat (split; [reflexivity|]).
  eexists. split; [vm_compute; reflexivity|].
  split; [reflexivity|]. split; [reflexivity|].
  vm_compute. discriminate.
Qed.

(** * Part III: further properties of the program *)

(** ** The error that is reported *)

Example tabbed_line_formatted :
  process_line tabbed_line = Ok (Reformat tabbed_formatted).
Proof. vm_compute. reflexivity. Qed.

(** X1 (reported token).  When the loop body raises, the [ValueError]
    names a numeric token that [float] rejects, and [float] accepts every
    numeric token before it: the fields are converted in the order x, y,
    z, occupancy, B-factor, and the first failure is the one reported. *)
Theorem first_rejected_token_reported (line : str) (e : exn) :
  process_line line = Raise e ->
  let parts := split line in
  exists i,
    numeric_index i
    /\ e = ValueError (part parts i)
    /\ float_of_str (part parts i) = None
    /\ forall j, numeric_index j -> j < i ->
                 float_of_str (part parts j) <> None.
Proof.
  intros H parts.
  destruct (process_line_cases line) as [(_ & _ & Hf)|[_ Hc]];
    [|rewrite Hc in H; discriminate].
  rewrite Hf in H. fold parts in H.
  assert (Hfl : format_line parts = Raise e)
    by (destruct (format_line parts); [discriminate|now injection H as <-]).
  clear H Hf. unfold format_line, float_field in Hfl.
  assert (Hcases : forall i j, numeric_index j -> j < i -> i <= 10 ->
             j = 6 \/ (j = 7 /\ 7 < i) \/ (j = 8 /\ 8 < i)
             \/ (j = 9 /\ 9 < i))
    by (unfold numeric_index; lia).
  destruct (float_of_str (part parts 6)) eqn:H6;
    [destruct (float_of_str (part parts 7)) eqn:H7;
     [destruct (float_of_str (part parts 8)) eqn:H8;
      [destruct (float_of_str (part parts 9)) eqn:H9;
       [destruct (float_of_str (part parts 10)) eqn:H10;
        [discriminate|exists 10]
       |exists 9]
      |exists 8]
     |exists 7]
    |exists 6];
    injection Hfl as <-;
    (split; [unfold numeric_index; lia|]);
    (split; [reflexivity|]); (split; [assumption|]);
    intros j Hj Hlt;
    destruct (Hcases _ j Hj Hlt ltac:(lia))
      as [-> | [[-> ?] | [[-> ?] | [-> ?]]]];
    try lia; congruence.
Qed.

(** Of the two bad tokens of [twice_broken_line], the first is reported. *)
Lemma first_rejected_token_reported_witness :
  exists i,
    numeric_index i
    /\ ValueError "abc" = ValueError (part (split twice_broken_line) i)
    /\ float_of_str (part (split twice_broken_line) i) = None
    /\ forall j, numeric_index j -> j < i ->
                 float_of_str (part (split twice_broken_line) j) <> None.
Proof.
  assert (H : process_line twice_broken_line = Raise (ValueError "abc"))
    by (vm_compute; reflexivity).
  exact (@first_rejected_token_reported twice_broken_line _ H).
Defined.

(** ** Shape of a rewritten line *)

Lemma max_excess (w l : nat) : Nat.max w l = w + (l - w).
Proof. lia. Qed.

Lemma ok_inj (A : Type) (a b : A) : Ok a = Ok b -> a = b.
Proof. now intros [= ->]. Qed.

Lemma length_concat_fields
    (f1 f2 f3 f4 f5 f6 f7 f8 f9 f10 f11 f12 f13 f14 f15 f16 f17 : str) :
  length (f1 ++ f2 ++ f3 ++ f4 ++ f5 ++ f6 ++ f7 ++ f8 ++ f9 ++ f10 ++ f11
          ++ f12 ++ f13 ++ f14 ++ f15 ++ f16 ++ f17 ++ [newline]) =
  length f1 + length f2 + length f3 + length f4 + length f5 + length f6
  + length f7 + length f8 + length f9 + length f10 + length f11
  + length f12 + length f13 + length f14 + length f15 + length f16
  + length f17 + 1.
Proof. rewrite !length_app. simpl. lia. Qed.

Lemma number_fits_iff (w p : nat) (tok : str) (x : float) :
  float_of_str tok = Some x ->
  number_fits w p tok = true <-> length (format_fixed p x) <= w.
Proof.
  intros H. unfold number_fits. rewrite H. apply Nat.leb_le.
Qed.

(** X2 (length of a rewritten line).  A rewritten line, newline included,
    is never shorter than 79 characters, and it has exactly 79 characters
    if and only if every value of the record fits its field: a value that
    is too wide makes the line longer, and nothing makes it shorter. *)
Theorem rewritten_line_length (line out : str) :
  process_line line = Ok (Reformat out) ->
  79 <= length out
  /\ (length out = 79 <-> fits_nominal (split line) = true).
Proof.
  intros H.
  destruct (process_line_reformat_inv _ H) as (_ & _ & Hf).
  destruct (format_line_inv _ Hf)
    as (x & y & z & occ & b & Hx & Hy & Hz & Ho & Hb).
  rewrite (format_line_ok _ Hx Hy Hz Ho Hb) in Hf. apply ok_inj in Hf.
  rewrite <- Hf. clear Hf.
  unfold fits_nominal, text_fits.
  rewrite !andb_true_iff, !Nat.leb_le.
  rewrite (number_fits_iff 8 3 _ Hx), (number_fits_iff 8 3 _ Hy),
    (number_fits_iff 8 3 _ Hz), (number_fits_iff 6 2 _ Ho),
    (number_fits_iff 6 2 _ Hb).
  rewrite length_concat_fields, !length_ljust, !length_rjust.
  cbn [length]. rewrite !max_excess, <- !Nat.sub_0_le.
  repeat match goal with
         | |- context [length ?t - ?w] => generalize (length t - w); intro
         end.
  lia.
Qed.

(** The sample record gives a line of 79 characters. *)
Lemma rewritten_line_length_witness :
  79 <= length sample_formatted
  /\ (length sample_formatted = 79 <->
      fits_nominal (split sample_line) = true).
Proof.
  assert (H : process_line sample_line = Ok (Reformat sample_formatted))
    by (vm_compute; reflexivity).
  exact (@rewritten_line_length sample_line sample_formatted H).
Defined.

Section BodyCharacters.

Variable P : ascii -> Prop.
Hypothesis P_space : P space.
Hypothesis P_ink : forall c, isspace c = false -> P c.

Lemma body_blank (n : nat) : Forall P (repeat space n).
Proof.
  apply Forall_forall. intros c Hc. apply repeat_spec in Hc. now subst c.
Qed.

Lemma body_ink (t : str) : no_space t -> Forall P t.
Proof. intros H. eapply Forall_impl; [|exact H]. exact P_ink. Qed.

Lemma body_ljust (w : nat) (t : str) : no_space t -> Forall P (ljust w t).
Proof.
  intros H. apply Forall_app. split; [now apply body_ink|apply body_blank].
Qed.

Lemma body_rjust (w : nat) (t : str) : no_space t -> Forall P (rjust w t).
Proof.
  intros H. apply Forall_app. split; [apply body_blank|now apply body_ink].
Qed.

(** The characters of a formatted line before its newline are spaces and
    characters of the values. *)
Lemma format_line_body (s out : str) :
  format_line (split s) = Ok out ->
  exists body, out = body ++ [newline] /\ Forall P body.
Proof.
  intros H.
  destruct (format_line_inv _ H)
    as (x & y & z & occ & b & Hx & Hy & Hz & Ho & Hb).
  rewrite (format_line_ok _ Hx Hy Hz Ho Hb) in H. injection H as <-.
  exists (ljust 6 (part (split s) 0) ++ rjust 5 (part (split s) 1) ++ " "
          ++ ljust 4 (part (split s) 2) ++ " "
          ++ rjust 3 (part (split s) 3) ++ " "
          ++ rjust 1 (part (split s) 4) ++ rjust 4 (part (split s) 5)
          ++ "    "
          ++ rjust 8 (format_fixed 3 x) ++ rjust 8 (format_fixed 3 y)
          ++ rjust 8 (format_fixed 3 z)
          ++ rjust 6 (format_fixed 2 occ) ++ rjust 6 (format_fixed 2 b)
          ++ "          " ++ rjust 2 (element_of (split s))).
  split.
  - repeat (rewrite <- app_assoc; simpl app). reflexivity.
  - pose proof (part_no_space s) as Hpart.
    pose proof (element_of_no_space s) as Hel.
    pose proof (fun p v => proj2 (format_fixed_token p v)) as Hnum.
    simpl app.
    repeat first
      [ apply body_ljust; [apply Hpart]
      | apply body_rjust; first [apply Hpart | apply Hel | apply Hnum]
      | apply Forall_cons; [exact P_space|]
      | apply Forall_app; split ].
Qed.

End BodyCharacters.

(** X3 (whitespace of a rewritten line).  A rewritten line ends with a
    newline, and before it the only whitespace is the space character:
    tabs and other separators of the input line do not reach the
    output. *)
Theorem rewritten_line_whitespace (line out : str) :
  process_line line = Ok (Reformat out) ->
  exists body,
    out = body ++ [newline]
    /\ Forall (fun c => c = space \/ isspace c = false) body.
Proof.
  intros H.
  destruct (process_line_reformat_inv _ H) as (_ & _ & Hf).
  apply (@format_line_body space_or_ink) with (s := line).
  - now left.
  - intros c Hc. now right.
  - exact Hf.
Qed.

(** The tab of [tabbed_line] is gone. *)
Lemma rewritten_line_whitespace_witness :
  exists body,
    tabbed_formatted = body ++ [newline]
    /\ Forall (fun c => c = space \/ isspace c = false) body.
Proof.
  assert (H : process_line tabbed_line = Ok (Reformat tabbed_formatted))
    by (vm_compute; reflexivity).
  exact (@rewritten_line_whitespace tabbed_line tabbed_formatted H).
Defined.

(** ** Numeric fields *)

(** X4 (text of a numeric field).  Whatever notation the token uses
    (exponent, underscores, a sign, any number of decimals, [inf],
    [nan]), the field written for it is right-justified and holds [nan],
    [inf], [-inf], or an optional minus sign, at least one digit, a point
    and exactly [p] digits. *)
Theorem numeric_field_text (w p : nat) (tok field : str) :
  float_field w p tok = Ok field ->
  1 <= p ->
  exists r, field = rjust w r /\ fixed_point_text p r.
Proof.
  intros H Hp. apply float_field_inv in H. destruct H as (x & _ & ->).
  exists (format_fixed p x). split; [reflexivity|].
  unfold fixed_point_text. destruct x as [|neg|neg m e].
  - now left.
  - destruct neg; simpl; auto.
  - right. right. right.
    destruct (@format_fixed_decimals p neg m e Hp)
      as (ip & fp & E & H1 & H2 & H3 & H4).
    now exists neg, ip, fp.
Qed.

(** [+3_0] is written as [30.000]. *)
Lemma numeric_field_text_witness :
  exists r, "  30.000" = rjust 8 r /\ fixed_point_text 3 r.
Proof.
  assert (H : float_field 8 3 "+3_0" = Ok "  30.000")
    by (vm_compute; reflexivity).
  assert (Hp : 1 <= 3) by lia.
  exact (@numeric_field_text 8 3 "+3_0" "  30.000" H Hp).
Defined.

Lemma split_rjust_token (w : nat) (t : str) :
  is_token t -> split (rjust w t) = [t].
Proof.
  intros Ht. unfold rjust. rewrite split_skip_blank.
  now apply split_token_end.
Qed.

(** X5 (a numeric field read back).  A numeric field of at most twelve
    characters, written with one to three decimals, holds one token;
    [float] accepts this token, and formatting it again gives the same
    field, character for character. *)
Theorem numeric_field_round_trip (w p : nat) (tok field : str) :
  float_field w p tok = Ok field ->
  1 <= p <= 3 ->
  length field <= 12 ->
  exists r,
    split field = [r]
    /\ float_of_str r <> None
    /\ float_field w p r = Ok field.
Proof.
  intros H Hp Hlen. apply float_field_inv in H.
  destruct H as (x & Hx & ->).
  rewrite length_rjust in Hlen.
  destruct (@format_fixed_stable p x (float_of_str_ok _ Hx) Hp)
    as (x' & Hx' & E); [lia|].
  exists (format_fixed p x). split; [|split].
  - apply split_rjust_token, format_fixed_token.
  - congruence.
  - unfold float_field. rewrite Hx', E. reflexivity.
Qed.

(** The field of [-12.3456] is read back as [-12.346] and written as it
    was. *)
Lemma numeric_field_round_trip_witness :
  exists r,
    split " -12.346" = [r]
    /\ float_of_str r <> None
    /\ float_field 8 3 r = Ok " -12.346".
Proof.
  assert (H : float_field 8 3 "-12.3456" = Ok " -12.346")
    by (vm_compute; reflexivity).
  assert (Hp : 1 <= 3 <= 3) by lia.
  assert (Hlen : length (" -12.346" : str) <= 12) by (vm_compute; lia).
  exact (@numeric_field_round_trip 8 3 "-12.3456" " -12.346" H Hp Hlen).
Defined.

(** ** A rewritten line read again *)

(** X6 (tokens of a rewritten line).  When the values that follow
    another field without a blank are narrower than their fields, the
    rewritten line splits into the values it was built from: the six
    text tokens, the five numbers as rendered, and the element symbol if
    there is one.  Extra tokens of the input line are gone. *)
Theorem rewritten_line_tokens (line out : str) :
  process_line line = Ok (Reformat out) ->
  separated (split line) = true ->
  let parts := split line in
  exists x y z occ b,
    float_of_str (part parts 6) = Some x
    /\ float_of_str (part parts 7) = Some y
    /\ float_of_str (part parts 8) = Some z
    /\ float_of_str (part parts 9) = Some occ
    /\ float_of_str (part parts 10) = Some b
    /\ split out =
       [part parts 0; part parts 1; part parts 2; part parts 3;
        part parts 4; part parts 5;
        format_fixed 3 x; format_fixed 3 y; format_fixed 3 z;
        format_fixed 2 occ; format_fixed 2 b]
       ++ push (element_of parts) [].
Proof.
  intros H Hsep parts.
  destruct (process_line_reformat_inv _ H) as (_ & Hn & Hf).
  destruct (format_line_inv _ Hf)
    as (x & y & z & occ & b & Hx & Hy & Hz & Ho & Hb).
  rewrite (format_line_ok _ Hx Hy Hz Ho Hb) in Hf. apply ok_inj in Hf.
  apply separated_inv in Hsep.
  destruct Hsep as (S01 & S5 & M7 & M8 & M9 & M10).
  apply number_fits_inv in M7, M8, M9, M10.
  destruct M7 as (y' & Hy' & Wy), M8 as (z' & Hz' & Wz),
    M9 as (occ' & Ho' & Wo), M10 as (b' & Hb' & Wb).
  assert (y' = y) as -> by congruence.
  assert (z' = z) as -> by congruence.
  assert (occ' = occ) as -> by congruence.
  assert (b' = b) as -> by congruence.
  exists x, y, z, occ, b. repeat (split; [assumption|]).
  assert (Htok : forall i, i < 11 -> is_token (part parts i))
    by (intros i Hi; apply part_token; lia).
  pose proof (element_of_no_space line) as Hel.
  rewrite <- Hf.
  apply split_formatted;
    try (apply Htok; lia); try apply format_fixed_token;
    try assumption; lia.
Qed.

(** The tokens of the line written for [sample_line_14]: twelve, the
    two extra ones are gone. *)
Lemma rewritten_line_tokens_witness :
  exists x y z occ b,
    float_of_str (part (split sample_line_14) 6) = Some x
    /\ float_of_str (part (split sample_line_14) 7) = Some y
    /\ float_of_str (part (split sample_line_14) 8) = Some z
    /\ float_of_str (part (split sample_line_14) 9) = Some occ
    /\ float_of_str (part (split sample_line_14) 10) = Some b
    /\ split sample_formatted =
       [part (split sample_line_14) 0; part (split sample_line_14) 1;
        part (split sample_line_14) 2; part (split sample_line_14) 3;
        part (split sample_line_14) 4; part (split sample_line_14) 5;
        format_fixed 3 x; format_fixed 3 y; format_fixed 3 z;
        format_fixed 2 occ; format_fixed 2 b]
       ++ push (element_of (split sample_line_14)) [].
Proof.
  assert (H : process_line sample_line_14 = Ok (Reformat sample_formatted))
    by (vm_compute; reflexivity).
  assert (Hsep : separated (split sample_line_14) = true) by reflexivity.
  exact (@rewritten_line_tokens sample_line_14 sample_formatted H Hsep).
Defined.

(** X7 (a rewritten line keeps its prefix).  A rewritten line starts
    with the record type of the input line, in full, and so starts with
    [ATOM] or [HETATM] again: a later run takes it for a coordinate line
    too, whatever its fields have become. *)
Theorem rewritten_line_prefix (line out : str) :
  process_line line = Ok (Reformat out) ->
  has_prefix out = true
  /\ exists rest, out = part (split line) 0 ++ rest.
Proof.
  intros H.
  destruct (process_line_reformat_inv _ H) as (Hp & _ & Hf).
  destruct (format_line_inv _ Hf)
    as (x & y & z & occ & b & Hx & Hy & Hz & Ho & Hb).
  rewrite (format_line_ok _ Hx Hy Hz Ho Hb) in Hf. apply ok_inj in Hf.
  rewrite <- Hf.
  match goal with
  | |- context [ljust 6 ?t ++ ?r] => set (fields := r)
  end.
  unfold ljust. rewrite <- app_assoc.
  split.
  - now apply has_prefix_first_token.
  - eexists. reflexivity.
Qed.

(** The line written for [crowded_line] has the prefix, although a
    second run fails on it. *)
Lemma rewritten_line_prefix_witness :
  has_prefix
    ("ATOM      1 N    MET A1000      10.000  20.000  30.000  1.00 20.00           N"
     ++ [newline]) = true
  /\ exists rest,
       "ATOM      1 N    MET A1000      10.000  20.000  30.000  1.00 20.00           N"
       ++ [newline] = part (split crowded_line) 0 ++ rest.
Proof.
  assert (H : process_line crowded_line =
              Ok (Reformat
                    ("ATOM      1 N    MET A1000      10.000  20.000  30.000  1.00 20.00           N"
                     ++ [newline])))
    by (vm_compute; reflexivity).
  exact (@rewritten_line_prefix crowded_line _ H).
Defined.

(** ** Runs on whole texts *)

Lemma processed_copies (lines : list str) :
  (forall line, In line lines ->
                has_prefix line = false \/ length (split line) < 11) ->
  processed lines (map Copy lines).
Proof.
  induction lines as [|line lines IH]; intros H; simpl.
  - constructor.
  - constructor.
    + apply process_line_copy. apply H. now left.
    + apply IH. intros l Hl. apply H. now right.
Qed.

Lemma concat_written_copies (lines : list str) :
  concat (map written (map Copy lines)) = concat lines.
Proof.
  induction lines as [|line lines IH]; simpl; [reflexivity|].
  now rewrite IH.
Qed.

(** A text in which no line has both the prefix and eleven tokens is
    written as it is handed over. *)
Lemma run_without_records (input : str) :
  (forall line, In line (readlines input) ->
                has_prefix line = false \/ length (split line) < 11) ->
  fix_pdb_alignment input = (input, None).
Proof.
  intros H. unfold fix_pdb_alignment.
  rewrite (@write_lines_ok _ _ [] (processed_copies _ H)).
  rewrite concat_written_copies, readlines_concat. reflexivity.
Qed.

Lemma ends_with_newline_app (a l : str) :
  l <> [] -> ends_with_newline (a ++ l) <-> ends_with_newline l.
Proof.
  intros Hl. unfold ends_with_newline. split.
  - intros [body H].
    destruct (exists_last Hl) as (l' & c & ->).
    rewrite app_assoc in H. apply app_inj_tail in H.
    destruct H as [_ ->]. now exists l'.
  - intros [body ->]. exists (a ++ body). now rewrite app_assoc.
Qed.

Lemma lines_ok_nonempty (ls : list str) :
  lines_ok ls -> Forall (fun l => l <> []) ls.
Proof.
  induction 1 as [|body Hne Hb|body ls Hb Hls IH].
  - constructor.
  - constructor; [assumption|constructor].
  - constructor; [|assumption]. destruct body; discriminate.
Qed.

(** X9 (final newline).  When the run succeeds, the end of the output
    follows the last line of the input: if that line is rewritten, the
    output ends with a newline, also when the input does not; if it is
    copied, the output ends with a newline exactly when the input
    does. *)
Theorem final_newline (input out : str) (before : list str) (line : str) :
  fix_pdb_alignment input = (out, None) ->
  readlines input = before ++ [line] ->
  (has_prefix line = true /\ 11 <= length (split line) ->
   ends_with_newline out)
  /\ (has_prefix line = false \/ length (split line) < 11 ->
      (ends_with_newline out <-> ends_with_newline input)).
Proof.
  intros Hrun Hlast.
  assert (Hne : line <> []).
  { pose proof (lines_ok_nonempty (readlines_ok input)) as Hall.
    rewrite Hlast in Hall. apply Forall_app in Hall.
    destruct Hall as [_ Hall]. now inversion Hall. }
  unfold fix_pdb_alignment in Hrun.
  destruct (write_lines_cases (readlines input) [])
    as [(acts & Hacts & Hw)
       |(bf & bad & af & acts & e & _ & _ & _ & Hw)];
    rewrite Hw in Hrun; [|discriminate].
  injection Hrun as <-. simpl app.
  rewrite Hlast in Hacts. unfold processed in Hacts.
  apply Forall2_app_inv_l in Hacts.
  destruct Hacts as (acts1 & acts2 & _ & Hl & ->).
  inversion Hl as [|? a ? rest Ha Hrest]; subst.
  inversion Hrest; subst.
  rewrite map_app, concat_app. simpl. rewrite app_nil_r.
  split.
  - intros [Hp Hn].
    rewrite (process_line_format _ Hp Hn) in Ha.
    destruct (format_line (split line)) as [o|] eqn:Hf; [|discriminate].
    injection Ha as <-. simpl.
    destruct (format_line_one_line _ Hf) as (body & -> & _).
    exists (concat (map written acts1) ++ body). now rewrite app_assoc.
  - intros Hc. rewrite (process_line_copy _ Hc) in Ha.
    injection Ha as <-. simpl.
    rewrite <- (readlines_concat input), Hlast, concat_app. simpl.
    rewrite app_nil_r.
    rewrite !ends_with_newline_app by assumption. reflexivity.
Qed.

(** The last line of this input is a record without newline; the output
    ends with one. *)
Lemma final_newline_witness :
  ends_with_newline
    ("HEADER test" ++ [newline]
     ++ "HETATM    7 O    HOH B  12      10.000  -2.500  30.000  0.50   nan           O"
     ++ [newline]).
Proof.
  assert (H : fix_pdb_alignment ("HEADER test" ++ [newline] ++ tabbed_line) =
              ("HEADER test" ++ [newline]
               ++ "HETATM    7 O    HOH B  12      10.000  -2.500  30.000  0.50   nan           O"
               ++ [newline], None))
    by (vm_compute; reflexivity).
  assert (Hlast : readlines ("HEADER test" ++ [newline] ++ tabbed_line) =
                  ["HEADER test" ++ [newline]] ++ [tabbed_line])
    by reflexivity.
  apply (proj1 (@final_newline _ _ _ _ H Hlast)).
  split; [reflexivity|vm_compute; lia].
Defined.

Lemma readlines_nil (s : str) : readlines s = [] -> s = [].
Proof.
  destruct s as [|c s]; [reflexivity|]. simpl.
  destruct (Ascii.eqb c newline); [discriminate|].
  destruct (readlines s); discriminate.
Qed.

(** A text that ends with a newline is read line by line without regard
    to what follows it. *)
Lemma readlines_app (a b : str) :
  a = [] \/ ends_with_newline a ->
  readlines (a ++ b) = readlines a ++ readlines b.
Proof.
  intros [->|[body ->]]; [reflexivity|].
  induction body as [|c body IH]; [reflexivity|].
  simpl. destruct (Ascii.eqb c newline).
  - simpl. now rewrite IH.
  - rewrite IH.
    destruct (readlines (body ++ [newline])) as [|l ls] eqn:E;
      [|reflexivity].
    apply readlines_nil in E. destruct body; discriminate.
Qed.

Lemma write_lines_app (l1 l2 : list str) (out : str) :
  write_lines (l1 ++ l2) out =
  match write_lines l1 out with
  | (o, None) => write_lines l2 o
  | (o, Some e) => (o, Some e)
  end.
Proof.
  revert out. induction l1 as [|line l1 IH]; intros out; simpl.
  - reflexivity.
  - destruct (process_line line); [apply IH|reflexivity].
Qed.

Lemma write_lines_from (lines : list str) (out : str) :
  write_lines lines out =
  (out ++ fst (write_lines lines []), snd (write_lines lines [])).
Proof.
  destruct (write_lines_cases lines [])
    as [(acts & Hacts & Hw)
       |(before & bad & after & acts & e & -> & Hacts & Hbad & Hw)];
    rewrite Hw; simpl.
  - now apply write_lines_ok.
  - now apply write_lines_raise.
Qed.

(** X10 (runs compose at line ends).  For a text [a] that is empty or
    ends with a newline, the run on [a ++ b] is the run on [a] followed by
    the run on [b]: the outputs are concatenated, and an error in [a]
    stops the run before [b] is looked at.  No line influences how another
    one is handled. *)
Theorem run_on_concatenation (a b : str) :
  a = [] \/ ends_with_newline a ->
  fix_pdb_alignment (a ++ b) =
  match fix_pdb_alignment a with
  | (out_a, None) =>
      (out_a ++ fst (fix_pdb_alignment b), snd (fix_pdb_alignment b))
  | (out_a, Some e) => (out_a, Some e)
  end.
Proof.
  intros Ha. unfold fix_pdb_alignment.
  rewrite (readlines_app b Ha), write_lines_app.
  destruct (write_lines (readlines a) []) as [oa [e|]]; [reflexivity|].
  apply write_lines_from.
Qed.

(** The sample record followed by the input with a broken line. *)
Lemma run_on_concatenation_witness :
  fix_pdb_alignment (sample_line ++ broken_input) =
  (sample_formatted ++ "HEADER test" ++ [newline], Some (ValueError "abc")).
Proof.
  assert (Ha : sample_line = [] \/ ends_with_newline sample_line)
    by (right; eexists; reflexivity).
  rewrite (run_on_concatenation broken_input Ha).
  reflexivity.
Defined.

(** ** Numbers with few decimals *)

Section ExactDecimals.

Open Scope Z_scope.

(** The last place of the binary64 nearest to [n / d] is finer than
    [1 / k] when [n / d] is [r / k] for some [r] below [2^51]. *)
Lemma ulp_exponent_fine_ratio (n d r k : Z) :
  0 < n -> 0 < d -> 0 < r < 2 ^ 51 -> 0 < k < 2 ^ 1000 ->
  n * k = r * d ->
  ulp_exponent n d < 0 /\ k < 2 ^ (- ulp_exponent n d).
Proof.
  intros Hn Hd Hr Hk Heq. unfold ulp_exponent.
  pose proof (Z.log2_spec n Hn) as [Hn1 Hn2].
  pose proof (Z.log2_spec d Hd) as [Hd1 Hd2].
  pose proof (Z.log2_spec r ltac:(lia)) as [Hr1 Hr2].
  pose proof (Z.log2_spec k ltac:(lia)) as [Hk1 Hk2].
  pose proof (Z.log2_nonneg n). pose proof (Z.log2_nonneg d).
  pose proof (Z.log2_nonneg r). pose proof (Z.log2_nonneg k).
  assert (Hlr : Z.log2 r < 51) by (apply Z.log2_lt_pow2; lia).
  assert (Hlk : Z.log2 k < 1000) by (apply Z.log2_lt_pow2; lia).
  assert (Hlog : Z.log2 n + Z.log2 k < Z.log2 r + Z.log2 d + 2).
  { apply (Z.pow_lt_mono_r_iff 2); [lia|lia|].
    replace (Z.log2 r + Z.log2 d + 2)
      with (Z.succ (Z.log2 r) + Z.succ (Z.log2 d)) by lia.
    rewrite !Z.pow_add_r by lia.
    assert (0 < 2 ^ Z.log2 n) by (apply Z.pow_pos_nonneg; lia).
    assert (0 < 2 ^ Z.log2 k) by (apply Z.pow_pos_nonneg; lia).
    nia. }
  set (e0 := Z.log2 n - Z.log2 d - 53).
  destruct (scale2 n d e0) as [n' d'].
  set (e := Z.max (-1074) (if n' <? d' * 2 ^ 53 then e0 else e0 + 1)).
  assert (He : -1074 <= e <= - (Z.log2 k + 1)).
  { unfold e, e0. destruct (_ <? _); lia. }
  split; [lia|].
  eapply Z.lt_le_trans; [exact Hk2|].
  apply Z.pow_le_mono_r; lia.
Qed.

(** Writing the nearest binary64 of a fraction that is [r / 10^p] gives
    the digits of [r]. *)
Lemma format_fixed_exact (neg : bool) (n d r : Z) (p : nat) :
  0 <= n -> 0 < d -> 0 <= r < 2 ^ 51 -> (p <= 300)%nat ->
  n * 10 ^ Z.of_nat p = r * d ->
  format_fixed p (binary64_round neg n d) = fixed_text neg r p.
Proof.
  intros Hn Hd Hr Hp Heq. set (k := 10 ^ Z.of_nat p) in *.
  assert (Hk : 0 < k < 2 ^ 1000).
  { unfold k. split; [apply Z.pow_pos_nonneg; lia|].
    apply Z.le_lt_trans with (10 ^ 300).
    - apply Z.pow_le_mono_r; lia.
    - reflexivity. }
  unfold binary64_round.
  destruct (Z.eqb_spec n 0) as [->|Hz].
  - assert (r = 0) as -> by nia. reflexivity.
  - assert (Hrpos : 0 < r) by nia.
    destruct (@ulp_exponent_fine_ratio n d r k) as [He Hfine]; try lia.
    set (e := ulp_exponent n d) in *.
    rewrite (scale2_neg _ _ He).
    set (m := round_half_even (n * 2 ^ (- e)) d).
    replace ((971 <? e) || ((e =? 971) && (m =? 2 ^ 53))) with false.
    2:{ symmetry. apply orb_false_intro.
        - apply Z.ltb_ge. lia.
        - apply andb_false_intro1. apply Z.eqb_neq. lia. }
    unfold format_fixed. fold k.
    rewrite scale2_nonneg by lia. f_equal.
    set (E := 2 ^ (- e)) in *.
    assert (HE : 0 < E) by (apply Z.pow_pos_nonneg; lia).
    apply round_half_even_unique; [lia|].
    pose proof (@round_half_even_near (n * E) d Hd) as Hnear.
    fold m in Hnear.
    assert (Hscaled : - (d * k) <= d * (2 * (m * k - r * E)) <= d * k)
      by nia.
    assert (- k <= 2 * (m * k - r * E) <= k) by nia.
    lia.
Qed.

End ExactDecimals.

Lemma float_of_digits (neg : bool) (r : Z) :
  (0 <= r)%Z ->
  float_of_str (fixed_text neg r 0) = Some (binary64_round neg (r * 1) 1).
Proof.
  intros Hr.
  pose proof (fixed_text_plain neg r 0) as Hplain.
  unfold fixed_text in *. simpl Z.of_nat in *. rewrite app_nil_r in *.
  change (10 ^ 0)%Z with 1%Z in *. rewrite Z.div_1_r in *.
  pose proof (digits_all_digits r) as Hds.
  destruct (digits r) as [|c ds] eqn:E; [now apply digits_nonempty in E|].
  assert (Hc : isdigit c = true) by (now inversion Hds).
  rewrite (@float_of_str_digit_first neg c ds Hc Hplain).
  unfold parse_decimal. rewrite span_digits_all by assumption.
  rewrite app_nil_r. simpl parse_exponent. cbv iota.
  rewrite <- E, horner_digits by assumption.
  reflexivity.
Qed.

(** X16 (numbers with few decimals are kept).  A numeric token in plain
    notation (an optional minus sign, digits without leading zeros, and
    [k] decimals, no more than the [p] decimals of the field) is written
    with the same digits, followed by [p - k] zeros: passing through the
    binary float does not disturb it, as long as the digits written, read
    as one integer, stay below [2^51] (any fifteen digits do). *)
Theorem plain_decimal_preserved (w p k : nat) (neg : bool) (r : Z) :
  (0 <= r)%Z ->
  k <= p <= 300 ->
  (r * 10 ^ Z.of_nat (p - k) < 2 ^ 51)%Z ->
  float_field w p (fixed_text neg r k) =
  Ok (rjust w (fixed_text neg (r * 10 ^ Z.of_nat (p - k)) p)).
Proof.
  intros Hr Hk Hb.
  assert (Hpow : (10 ^ Z.of_nat p
                  = 10 ^ Z.of_nat (p - k) * 10 ^ Z.of_nat k)%Z).
  { rewrite <- Z.pow_add_r by lia. f_equal. lia. }
  assert (Hpos : (0 < 10 ^ Z.of_nat (p - k))%Z)
    by (apply Z.pow_pos_nonneg; lia).
  unfold float_field.
  destruct k as [|k'].
  - rewrite float_of_digits by assumption. f_equal. f_equal.
    apply format_fixed_exact; lia.
  - rewrite float_of_fixed_text by lia. f_equal. f_equal.
    apply format_fixed_exact; lia.
Qed.

(** [-12.5] is written [-12.500], and [7] is written [7.00]. *)
Lemma plain_decimal_preserved_witness :
  float_field 8 3 "-12.5" = Ok " -12.500"
  /\ float_field 6 2 "7" = Ok "  7.00".
Proof.
  split.
  - assert (Hr : (0 <= 125)%Z) by lia.
    assert (Hk : 1 <= 3 <= 300) by lia.
    assert (Hb : (125 * 10 ^ Z.of_nat (3 - 1) < 2 ^ 51)%Z) by reflexivity.
    exact (@plain_decimal_preserved 8 3 1 true 125 Hr Hk Hb).
  - assert (Hr : (0 <= 7)%Z) by lia.
    assert (Hk : 0 <= 2 <= 300) by lia.
    assert (Hb : (7 * 10 ^ Z.of_nat (2 - 0) < 2 ^ 51)%Z) by reflexivity.
    exact (@plain_decimal_preserved 6 2 0 false 7 Hr Hk Hb).
Defined.

(** * Part IV: text mode, numeric text and files *)

(** ** Line endings *)

(** A text without carriage return is handed over as it is. *)
Lemma universal_newlines_plain (raw : str) :
  ~ In carriage_return raw -> universal_newlines raw = raw.
Proof.
  induction raw as [|c raw IH]; intros H; [reflexivity|].
  simpl. destruct (Ascii.eqb_spec c carriage_return) as [->|_].
  - exfalso. apply H. now left.
  - rewrite IH; [reflexivity|]. intros Hin. apply H. now right.
Qed.

Lemma in_universal_newlines (raw : str) :
  ~ In carriage_return (universal_newlines raw).
Proof.
  assert (H : forall n raw, length raw <= n ->
                            ~ In carriage_return (universal_newlines raw)).
  { clear raw. induction n as [|n IH]; intros raw Hn.
    - destruct raw; [intros []|simpl in Hn; lia].
    - destruct raw as [|c raw]; [intros []|]. simpl in Hn. simpl.
      destruct (Ascii.eqb_spec c carriage_return) as [->|Hc].
      + intros [Heq|Hin]; [discriminate|].
        destruct raw as [|c' raw']; [contradiction|].
        destruct (Ascii.eqb c' newline).
        * apply (IH raw'); [simpl in Hn; lia|assumption].
        * apply (IH (c' :: raw')); [lia|assumption].
      + intros [Heq|Hin]; [congruence|].
        apply (IH raw); [lia|assumption]. }
  apply (H (length raw)). lia.
Qed.

Lemma processed_then_copy (before after : list str) (line : str)
    (acts : list action) :
  processed before acts ->
  process_line line = Ok (Copy line) ->
  exists rest,
    fst (write_lines (before ++ line :: after) []) =
    concat (map written acts) ++ line ++ rest.
Proof.
  intros Hacts Hcopy.
  rewrite write_lines_app, (@write_lines_ok before acts [] Hacts).
  simpl. rewrite Hcopy. simpl.
  rewrite (write_lines_from after). simpl.
  exists (fst (write_lines after [])). now rewrite app_assoc.
Qed.

(** C4, as amended.  Take a line as text mode hands it to the loop (a
    carriage return with a line feed, or a carriage return alone, arrives
    as one newline; a text without carriage return arrives unchanged).
    If it does not start with [ATOM] or [HETATM], or has the prefix but
    fewer than eleven tokens, the loop appends exactly this line to the
    output, with or without its final newline.  So whenever no earlier
    line has stopped the run, the output holds the line right after what
    the earlier lines gave, also when a later line stops the run; and
    when the run succeeds, the line of the output at the same position is
    this line.  For a file without carriage returns the line is the one
    in the file, character for character. *)
Theorem passthrough (line : str) :
  has_prefix line = false \/ length (split line) < 11 ->
  process_line line = Ok (Copy line)
  /\ written (Copy line) = line
  /\ (forall rest written_so_far,
        write_lines (line :: rest) written_so_far =
        write_lines rest (written_so_far ++ line))
  /\ (forall raw before after acts,
        readlines (universal_newlines raw) = before ++ line :: after ->
        processed before acts ->
        exists rest,
          fst (fix_pdb_alignment (universal_newlines raw)) =
          concat (map written acts) ++ line ++ rest)
  /\ (forall raw out i,
        fix_pdb_alignment (universal_newlines raw) = (out, None) ->
        nth_error (readlines (universal_newlines raw)) i = Some line ->
        nth_error (readlines out) i = Some line)
  /\ (forall raw before after acts,
        ~ In carriage_return raw ->
        readlines raw = before ++ line :: after ->
        processed before acts ->
        exists rest,
          fst (fix_pdb_alignment (universal_newlines raw)) =
          concat (map written acts) ++ line ++ rest).
Proof.
  intros Hc. pose proof (process_line_copy _ Hc) as Hcopy.
  assert (Hreach : forall text before after acts,
             readlines text = before ++ line :: after ->
             processed before acts ->
             exists rest,
               fst (fix_pdb_alignment text) =
               concat (map written acts) ++ line ++ rest).
  { intros text before after acts Hsplit Hacts.
    unfold fix_pdb_alignment. rewrite Hsplit.
    now apply processed_then_copy. }
  split; [exact Hcopy|]. split; [reflexivity|].
  split; [intros rest o; simpl; now rewrite Hcopy|].
  split; [intros raw; apply Hreach|]. split.
  - intros raw out i Hrun Hi.
    destruct (run_ok_lines _ Hrun) as (acts & Hacts & ->).
    destruct (processed_nth _ Hacts Hi) as (a & Hnth & Ha).
    rewrite nth_error_map, Hnth. simpl.
    rewrite Hcopy in Ha. now injection Ha as <-.
  - intros raw before after acts Hcr Hsplit Hacts.
    rewrite (universal_newlines_plain _ Hcr).
    now apply (Hreach raw before after acts).
Qed.

(** A short [ATOM] line is copied; in [mixed_input], which has no
    carriage return, the header is found first in the output and [END],
    without newline, last. *)
Lemma passthrough_witness :
  process_line "ATOM 2 CA MET A 1 11.0 21.0" =
  Ok (Copy "ATOM 2 CA MET A 1 11.0 21.0")
  /\ (exists rest,
        fst (fix_pdb_alignment (universal_newlines mixed_input)) =
        concat (map written []) ++ ("HEADER test" ++ [newline]) ++ rest)
  /\ nth_error (readlines mixed_output) 3 = Some "END".
Proof.
  assert (Hshort : length (split "ATOM 2 CA MET A 1 11.0 21.0") < 11)
    by (vm_compute; lia).
  assert (Hheader : has_prefix ("HEADER test" ++ [newline]) = false)
    by reflexivity.
  assert (Hend : has_prefix "END" = false) by reflexivity.
  assert (Hcr : ~ In carriage_return mixed_input)
    by (vm_compute; intuition discriminate).
  assert (Hlines : readlines mixed_input =
                   [] ++ ("HEADER test" ++ [newline])
                   :: [sample_line;
                       "ATOM 2 CA MET A 1 11.0 21.0" ++ [newline]; "END"])
    by reflexivity.
  assert (Hnone : processed [] []) by constructor.
  assert (Hrun : fix_pdb_alignment (universal_newlines mixed_input) =
                 (mixed_output, None))
    by (vm_compute; reflexivity).
  split; [|split].
  - apply (passthrough "ATOM 2 CA MET A 1 11.0 21.0" (or_intror Hshort)).
  - apply (proj2 (proj2 (proj2 (proj2 (proj2
             (passthrough ("HEADER test" ++ [newline])
                (or_introl Hheader)))))))
      with (before := [])
           (after := [sample_line;
                      "ATOM 2 CA MET A 1 11.0 21.0" ++ [newline]; "END"]);
      assumption.
  - apply (proj1 (proj2 (proj2 (proj2 (proj2
             (passthrough "END" (or_introl Hend)))))))
      with (raw := mixed_input); [exact Hrun|reflexivity].
Defined.

(** C4, as stated, fails on two counts.  The header line of [crlf_input]
    ends with a carriage return and a line feed in the file; it does not
    start with [ATOM] or [HETATM], and yet the output holds it with a
    line feed alone, so the line of the file does not occur in the
    output.  And the last line of [broken_input], [END], is no coordinate
    line either, but the run stops on the line before it and the output
    does not hold it. *)
Lemma copied_line_not_byte_identical :
  (has_prefix crlf_input = false
   /\ fix_pdb_alignment (universal_newlines crlf_input) =
      (crlf_delivered, None)
   /\ crlf_delivered <> crlf_input
   /\ ~ occurs_in crlf_input crlf_delivered)
  /\ (nth_error (readlines (universal_newlines broken_input)) 2 =
      Some ("END" ++ [newline])
      /\ has_prefix ("END" ++ [newline]) = false
      /\ fix_pdb_alignment (universal_newlines broken_input) =
         ("HEADER test" ++ [newline], Some (ValueError "abc"))
      /\ ~ occurs_in ("END" ++ [newline]) ("HEADER test" ++ [newline])).
Proof.
  split.
  - split; [reflexivity|]. split; [reflexivity|].
    split; [discriminate|].
    rewrite <- occurs_inb_spec. vm_compute. discriminate.
  - split; [reflexivity|]. split; [reflexivity|].
    split; [reflexivity|].
    rewrite <- occurs_inb_spec. vm_compute. discriminate.
Qed.

(** X8 (texts without coordinate records).  When no line handed to the
    loop has both the prefix and eleven tokens, the run succeeds and
    writes the text as text mode delivered it: the input with every
    carriage return and line feed pair, and every lone carriage return,
    replaced by a newline.  The output equals the content of the input
    file character for character when that holds no carriage return. *)
Theorem unqualified_input_unchanged (raw : str) :
  (forall line, In line (readlines (universal_newlines raw)) ->
                has_prefix line = false \/ length (split line) < 11) ->
  fix_pdb_alignment (universal_newlines raw) = (universal_newlines raw, None)
  /\ (~ In carriage_return raw ->
      fix_pdb_alignment (universal_newlines raw) = (raw, None)).
Proof.
  intros H. pose proof (run_without_records _ H) as Hrun.
  split; [exact Hrun|].
  intros Hcr. rewrite Hrun. now rewrite (universal_newlines_plain _ Hcr).
Qed.

(** The header line that ends with a carriage return and a line feed is
    written with a newline alone. *)
Lemma unqualified_input_unchanged_witness :
  fix_pdb_alignment (universal_newlines crlf_input) = (crlf_delivered, None).
Proof.
  assert (H : forall line,
             In line (readlines (universal_newlines crlf_input)) ->
             has_prefix line = false \/ length (split line) < 11).
  { intros line Hin. vm_compute in Hin.
    repeat (destruct Hin as [<-|Hin]); try contradiction.
    left. reflexivity. }
  exact (proj1 (unqualified_input_unchanged crlf_input H)).
Defined.

(** ** Numeric text in its columns *)





(** C9, as stated, fails when a value is too wide.  [wide_line_11] has
    the prefix and exactly eleven tokens, so its element symbol is empty;
    its x coordinate takes 27 characters, and columns 77-78 of the
    output hold a point and a zero of the B-factor, not two spaces. *)
Lemma element_field_pushed_right :
  has_prefix wide_line_11 = true
  /\ length (split wide_line_11) = 11
  /\ element_of (split wide_line_11) = []
  /\ exists out,
       process_line wide_line_11 = Ok (Reformat out)
       /\ cols 77 78 out = ".0"
       /\ cols 77 78 out <> "  ".
Proof.
  repeat (split; [reflexivity|]).
  eexists. split; [vm_compute; reflexivity|].
  split; [reflexivity|]. vm_compute. discriminate.
Qed.

(** ** Runs on files *)

Lemma state_store_same (fs : filesystem) (f : file_id) (text : str) :
  state (store fs f text) f = Holds text.
Proof. simpl. now rewrite Nat.eqb_refl. Qed.

Lemma state_store_other (fs : filesystem) (f g : file_id) (text : str) :
  g <> f -> state (store fs f text) g = state fs g.
Proof.
  intros H. simpl. apply Nat.eqb_neq in H. now rewrite H.
Qed.

(** The call when both paths lead to one file that can be opened. *)
Lemma fix_pdb_alignment_files_same (i o : path) (fs : filesystem) :
  resolve fs i = resolve fs o ->
  (exists raw, state fs (resolve fs i) = Holds raw)
  \/ (exists delivered, state fs (resolve fs i) = Garbled delivered) ->
  can_write fs (resolve fs o) = true ->
  fix_pdb_alignment_files i o fs =
  (store (store fs (resolve fs o) []) (resolve fs o) [], None).
Proof.
  intros Hio Hst Hw. unfold fix_pdb_alignment_files.
  destruct Hst as [[raw Hst]|[d Hst]]; rewrite Hst, Hw;
    rewrite Hio, state_store_same; reflexivity.
Qed.

(** The call when the paths lead to two files and the input holds
    text. *)
Lemma fix_pdb_alignment_files_run (i o : path) (fs : filesystem)
    (raw : str) :
  state fs (resolve fs i) = Holds raw ->
  can_write fs (resolve fs o) = true ->
  resolve fs i <> resolve fs o ->
  fix_pdb_alignment_files i o fs =
  (store (store fs (resolve fs o) []) (resolve fs o)
     (fst (fix_pdb_alignment (universal_newlines raw))),
   option_map Uncaught (snd (fix_pdb_alignment (universal_newlines raw)))).
Proof.
  intros Hst Hw Hio. unfold fix_pdb_alignment_files.
  rewrite Hst, Hw, state_store_other, Hst by assumption.
  now destruct (fix_pdb_alignment (universal_newlines raw)).
Qed.

Lemma fix_pdb_alignment_files_locked (i o : path) (fs : filesystem)
    (raw : str) :
  state fs (resolve fs i) = Holds raw ->
  can_write fs (resolve fs o) = false ->
  fix_pdb_alignment_files i o fs = (fs, Some (OSError o)).
Proof.
  intros Hst Hw. unfold fix_pdb_alignment_files. now rewrite Hst, Hw.
Qed.

(** X13 (input and output in one file).  When both paths lead to the
    same file (the same path, another spelling of it, a link), and this
    file can be opened for reading and for writing, the call raises
    nothing and leaves the file empty: opening it for writing cuts it
    before the first line is read, so the loop finds no line and the text
    is lost. *)
Theorem same_path_empties_file (i o : path) (fs : filesystem) :
  resolve fs i = resolve fs o ->
  (exists raw, state fs (resolve fs i) = Holds raw)
  \/ (exists delivered, state fs (resolve fs i) = Garbled delivered) ->
  can_write fs (resolve fs o) = true ->
  snd (fix_pdb_alignment_files i o fs) = None
  /\ state (fst (fix_pdb_alignment_files i o fs)) (resolve fs i) = Holds [].
Proof.
  intros Hio Hst Hw.
  rewrite (@fix_pdb_alignment_files_same i o fs Hio Hst Hw).
  split; [reflexivity|].
  cbn [fst]. rewrite Hio. apply state_store_same.
Qed.

(** The sample record is lost when the file is given twice, and when it
    is given under two names that are links to one file. *)
Lemma same_path_empties_file_witness :
  (snd (fix_pdb_alignment_files input_file input_file (one_file sample_line))
   = None
   /\ state
        (fst (fix_pdb_alignment_files input_file input_file
                (one_file sample_line)))
        (resolve (one_file sample_line) input_file) = Holds [])
  /\ (snd (fix_pdb_alignment_files input_file output_file
             (linked_file sample_line)) = None
      /\ state
           (fst (fix_pdb_alignment_files input_file output_file
                   (linked_file sample_line)))
           (resolve (linked_file sample_line) input_file) = Holds []).
Proof.
  split.
  - assert (Hio : resolve (one_file sample_line) input_file
                  = resolve (one_file sample_line) input_file)
      by reflexivity.
    assert (Hst : (exists raw,
                     state (one_file sample_line)
                       (resolve (one_file sample_line) input_file)
                     = Holds raw)
                  \/ (exists delivered,
                        state (one_file sample_line)
                          (resolve (one_file sample_line) input_file)
                        = Garbled delivered))
      by (left; exists sample_line; reflexivity).
    assert (Hw : can_write (one_file sample_line)
                   (resolve (one_file sample_line) input_file) = true)
      by reflexivity.
    exact (@same_path_empties_file input_file input_file
             (one_file sample_line) Hio Hst Hw).
  - assert (Hio : resolve (linked_file sample_line) input_file
                  = resolve (linked_file sample_line) output_file)
      by reflexivity.
    assert (Hst : (exists raw,
                     state (linked_file sample_line)
                       (resolve (linked_file sample_line) input_file)
                     = Holds raw)
                  \/ (exists delivered,
                        state (linked_file sample_line)
                          (resolve (linked_file sample_line) input_file)
                        = Garbled delivered))
      by (left; exists sample_line; reflexivity).
    assert (Hw : can_write (linked_file sample_line)
                   (resolve (linked_file sample_line) output_file) = true)
      by reflexivity.
    exact (@same_path_empties_file input_file output_file
             (linked_file sample_line) Hio Hst Hw).
Defined.

(** X14 (what a failed run leaves behind).  When the input file holds
    text and the loop is stopped by a [ValueError], the two paths lead to
    different files, the output file exists after the call and holds what
    was written for the lines before the offending one, no more; whatever
    the output file held before is gone, and the input file is as it
    was. *)
Theorem failed_run_leaves_partial_output (i o : path) (fs : filesystem)
    (raw : str) (e : exn) :
  state fs (resolve fs i) = Holds raw ->
  snd (fix_pdb_alignment_files i o fs) = Some (Uncaught e) ->
  let fs' := fst (fix_pdb_alignment_files i o fs) in
  exists before bad after acts,
    readlines (universal_newlines raw) = before ++ bad :: after
    /\ processed before acts
    /\ process_line bad = Raise e
    /\ state fs' (resolve fs o) = Holds (concat (map written acts))
    /\ state fs' (resolve fs i) = Holds raw
    /\ resolve fs i <> resolve fs o.
Proof.
  intros Hst He fs'. unfold fs'.
  destruct (can_write fs (resolve fs o)) eqn:Hw.
  2:{ rewrite (@fix_pdb_alignment_files_locked i o fs raw Hst Hw) in He.
      discriminate. }
  destruct (Nat.eq_dec (resolve fs i) (resolve fs o)) as [Hio|Hio].
  { rewrite (@fix_pdb_alignment_files_same i o fs Hio
               (or_introl (ex_intro _ raw Hst)) Hw) in He.
    discriminate. }
  rewrite (@fix_pdb_alignment_files_run i o fs raw Hst Hw Hio) in *.
  cbn [fst snd] in *.
  rewrite state_store_same, !state_store_other, Hst by assumption.
  unfold fix_pdb_alignment in *.
  destruct (write_lines_cases (readlines (universal_newlines raw)) [])
    as [(acts & Hacts & Hrun)
       |(before & bad & after & acts & e' & Hsplit & Hacts & Hbad & Hrun)];
    rewrite Hrun in *; simpl in *; [discriminate|].
  injection He as <-.
  exists before, bad, after, acts. auto 7.
Qed.

(** The run on [broken_input] leaves the header line in the output
    file. *)
Lemma failed_run_leaves_partial_output_witness :
  exists before bad after acts,
    readlines (universal_newlines broken_input) = before ++ bad :: after
    /\ processed before acts
    /\ process_line bad = Raise (ValueError "abc")
    /\ state
         (fst (fix_pdb_alignment_files input_file output_file
                 (one_file broken_input)))
         (resolve (one_file broken_input) output_file)
       = Holds (concat (map written acts))
    /\ state
         (fst (fix_pdb_alignment_files input_file output_file
                 (one_file broken_input)))
         (resolve (one_file broken_input) input_file)
       = Holds broken_input
    /\ resolve (one_file broken_input) input_file
       <> resolve (one_file broken_input) output_file.
Proof.
  assert (Hst : state (one_file broken_input)
                  (resolve (one_file broken_input) input_file)
                = Holds broken_input)
    by reflexivity.
  assert (He : snd (fix_pdb_alignment_files input_file output_file
                      (one_file broken_input))
               = Some (Uncaught (ValueError "abc")))
    by (vm_compute; reflexivity).
  exact (@failed_run_leaves_partial_output input_file output_file
           (one_file broken_input) broken_input (ValueError "abc") Hst He).
Defined.
